(** * StockXpert cache service ([api/cache.py])

    A shallow embedding of [CacheService]: a facade over a Redis client with
    an in-process dictionary used when Redis could not be reached while the
    object was built.

    Conventions of the model.
    - A Python [str] is a [string] holding its UTF-8 bytes (a lone surrogate
      by its three-byte form, which strict UTF-8 refuses); [bytes] are
      [string] too.  [str.encode] and [bytes.decode] are the identity on
      well-formed UTF-8 and raise otherwise.
    - Time is the reading of [datetime.now()], an integer number of
      microseconds; a TTL of [t] seconds is [t * 1000000] of them.
    - A float value is carried as a decimal literal denoting it: the text
      [repr] gives, which is what [json.dumps] writes, for a float of the
      caller; the text of the payload for one [json.loads] reads.  The
      response time of [health_check] is computed as the program does, on
      doubles, each operation rounding to the nearest; the age of an entry
      is compared on the microseconds.
    - The interpreter is CPython 3.11: [str(int)] and [int(str)] raise
      [ValueError] beyond 4300 digits, in [json] too.
    - The library [redis] is not part of the program.  Of [redis.from_url]
      the model keeps what it is called with, and whether it builds the
      client or raises is a component of the world; of the client, the
      commands it sends and what the reference server answers, as [bytes].
    - Exceptions are values: a computation returns [Ret v] or [Raise e],
      and [try_except] is Python's [try: ... except Exception as e: ...].
      Exhaustion of the interpreter ([MemoryError], [RecursionError]) is
      not modelled.
    - The world holds the service object, the environment, the clock, the
      Redis server and a script of what the network does to the coming
      calls of the client: a call goes through, or its request is lost, or
      its reply is (a connection error or a timeout is raised), after some
      lag.  The commands issued are recorded, and so are the log records.
    - The module-level [set_cache] and [get_cache] call the methods of the
      one instance built when the module is loaded: they are the
      computations [set_cache] and [get_cache] below. *)

From Stdlib Require Import ZArith Ascii String List Bool Lia.
From Stdlib Require Import DecimalString DecimalZ DecimalFacts DecimalPos.
From stdpp Require Import base option gmap strings list fin_maps.

Local Open Scope string_scope.
Local Open Scope Z_scope.

(** ** Exceptions and outcomes *)

Module Py.

Inductive exn_class : Type :=
| ConnectionError | TimeoutError | ResponseError
| TypeError | ValueError | JSONDecodeError
| UnicodeEncodeError | UnicodeDecodeError
| KeyboardInterrupt | SystemExit.

Record exn : Type := Exn { exn_cls : exn_class; exn_msg : string }.

(** [isinstance(e, Exception)]: everything but the two classes that derive
    from [BaseException] directly. *)
Definition is_Exception (e : exn) : bool :=
  match exn_cls e with
  | KeyboardInterrupt | SystemExit => false
  | _ => true
  end.

(** [str(e)] *)
Definition str_exn (e : exn) : string := exn_msg e.

Inductive outcome (A : Type) : Type :=
| Ret (a : A)
| Raise (e : exn).
Arguments Ret {A} a.
Arguments Raise {A} e.

Definition returns {A} (o : outcome A) : Prop :=
  match o with Ret _ => True | Raise _ => False end.

(** ** Values *)

Unset Elimination Schemes.
Inductive pyval : Type :=
| PNone
| PBool (b : bool)
| PInt (z : Z)
| PFloat (lit : string)
| PStr (s : string)
| PList (l : list pyval)
| PTuple (l : list pyval)
| PDict (d : list (pyval * pyval))
| PObj (repr : string).
Set Elimination Schemes.
(* [PDict] keeps the insertion order; [PObj] is an object of any other
   class (a [datetime], a [set], ...), given by its [str()]. *)

Definition dquote : ascii := "034"%char.
Definition bslash : ascii := "092"%char.

(** [str(z)] for an [int] *)
Definition str_int (z : Z) : string := NilZero.string_of_int (Z.to_int z).

(** Byte value of a character. *)
Definition code (c : ascii) : Z := Z.of_N (N_of_ascii c).
Definition chr (n : Z) : ascii := ascii_of_N (Z.to_N n).

Definition is_cont (c : ascii) : bool := (128 <=? code c) && (code c <? 192).

(** Strict UTF-8, as [bytes.decode('utf-8')] and [str.encode('utf-8')]
    check it: no overlong form, no surrogate, nothing above U+10FFFF. *)
Fixpoint utf8_valid (s : string) : bool :=
  match s with
  | EmptyString => true
  | String b0 r0 =>
    let c0 := code b0 in
    if c0 <? 128 then utf8_valid r0
    else if c0 <? 194 then false
    else if c0 <? 224 then
      match r0 with
      | String b1 r1 => is_cont b1 && utf8_valid r1
      | _ => false
      end
    else if c0 <? 240 then
      match r0 with
      | String b1 (String b2 r2) =>
        is_cont b1 && is_cont b2
        && (negb (c0 =? 224) || (160 <=? code b1))
        && (negb (c0 =? 237) || (code b1 <? 160))
        && utf8_valid r2
      | _ => false
      end
    else if c0 <? 245 then
      match r0 with
      | String b1 (String b2 (String b3 r3)) =>
        is_cont b1 && is_cont b2 && is_cont b3
        && (negb (c0 =? 240) || (144 <=? code b1))
        && (negb (c0 =? 244) || (code b1 <? 144))
        && utf8_valid r3
      | _ => false
      end
    else false
  end.

(** [s.encode('utf-8')] *)
Definition str_encode (s : string) : outcome string :=
  if utf8_valid s then Ret s
  else Raise (Exn UnicodeEncodeError "'utf-8' codec can't encode character: surrogates not allowed").

(** [b.decode('utf-8')] *)
Definition bytes_decode (b : string) : outcome string :=
  if utf8_valid b then Ret b
  else Raise (Exn UnicodeDecodeError "'utf-8' codec can't decode byte: invalid start byte").

(** The UTF-8 form of code point [n] (three bytes for a surrogate). *)
Definition utf8_encode (n : Z) : string :=
  if n <? 128 then String (chr n) ""
  else if n <? 2048 then
    String (chr (Z.lor 192 (Z.shiftr n 6)))
      (String (chr (Z.lor 128 (Z.land n 63))) "")
  else if n <? 65536 then
    String (chr (Z.lor 224 (Z.shiftr n 12)))
      (String (chr (Z.lor 128 (Z.land (Z.shiftr n 6) 63)))
         (String (chr (Z.lor 128 (Z.land n 63))) ""))
  else
    String (chr (Z.lor 240 (Z.shiftr n 18)))
      (String (chr (Z.lor 128 (Z.land (Z.shiftr n 12) 63)))
         (String (chr (Z.lor 128 (Z.land (Z.shiftr n 6) 63)))
            (String (chr (Z.lor 128 (Z.land n 63))) ""))).


Definition is_digit (c : ascii) : bool := (48 <=? code c) && (code c <=? 57).

(** *** Integers and their decimal form

    CPython 3.11 bounds the conversions between [int] and [str]: beyond
    [sys.get_int_max_str_digits()] digits, 4300 unless the program changes
    it (this one does not), they raise [ValueError]. *)

Definition max_str_digits : nat := 4300.

(** The number of decimal digits of [z]. *)
Definition int_len (z : Z) : nat := String.length (str_int (Z.abs z)).

(** [str(z)] as the interpreter computes it. *)
Definition int_to_str (z : Z) : outcome string :=
  if (int_len z <=? max_str_digits)%nat then Ret (str_int z)
  else Raise (Exn ValueError
    "Exceeds the limit (4300 digits) for integer string conversion; use sys.set_int_max_str_digits() to increase the limit").

(** The error of [int(s)] for a literal of [n] digits, too many. *)
Definition too_many_digits (n : nat) : exn :=
  Exn ValueError
    ("Exceeds the limit (4300 digits) for integer string conversion: value has "
     +:+ str_int (Z.of_nat n)
     +:+ " digits; use sys.set_int_max_str_digits() to increase the limit").

(** [Py_ISSPACE]: the white space of the C locale. *)
Definition is_space (c : ascii) : bool :=
  let n := code c in ((9 <=? n) && (n <=? 13)) || (n =? 32).

(** [Py_UNICODE_ISSPACE] beyond ASCII (Unicode 14.0, as CPython 3.11 has
    it). *)
Definition uni_space (n : Z) : bool :=
  (n =? 133) || (n =? 160) || (n =? 5760) || ((8192 <=? n) && (n <=? 8202))
  || (n =? 8232) || (n =? 8233) || (n =? 8239) || (n =? 8287) || (n =? 12288).

(** The code points of the digit zero in the decimal digits beyond ASCII;
    the digits one to nine follow each of them. *)
Definition digit_zeros : list Z :=
  [ 1632; 1776; 1984; 2406; 2534; 2662; 2790; 2918; 3046; 3174; 3302; 3430;
    3558; 3664; 3792; 3872; 4160; 4240; 6112; 6160; 6470; 6608; 6784; 6800;
    6992; 7088; 7232; 7248; 42528; 43216; 43264; 43472; 43504; 43600; 44016;
    65296; 66720; 68912; 69734; 69872; 69942; 70096; 70384; 70736; 70864;
    71248; 71360; 71472; 71904; 72016; 72784; 73040; 73120; 92768; 92864;
    93008; 120782; 120792; 120802; 120812; 120822; 123200; 123632; 125264;
    130032 ].

(** [Py_UNICODE_TODECIMAL] *)
Definition uni_decimal (n : Z) : option Z :=
  match List.find (fun z => (z <=? n) && (n <? z + 10)) digit_zeros with
  | Some z => Some (n - z)
  | None => None
  end.

(** The ASCII character that stands for a character of 127 and more in
    an integer literal. *)
Definition ascii_of_point (n : Z) : option ascii :=
  if uni_space n then Some " "%char
  else
    match uni_decimal n with
    | Some d => Some (chr (48 + d))
    | None => None
    end.

(** [_PyUnicode_TransformDecimalAndSpaceToASCII]: the characters below 127
    as they are, a space for white space, the ASCII digit for a decimal
    digit; at any other character a question mark, and the rest is
    dropped. *)
Fixpoint ascii_form (s : string) : string :=
  match s with
  | EmptyString => ""
  | String b0 r0 =>
    let c0 := code b0 in
    let put (n : Z) (k : string) : string :=
      match ascii_of_point n with
      | Some c => String c k
      | None => "?"
      end in
    if c0 <? 127 then String b0 (ascii_form r0)
    else if c0 <? 194 then "?"
    else if c0 <? 224 then
      match r0 with
      | String b1 r1 =>
        if is_cont b1 then put ((c0 - 192) * 64 + (code b1 - 128)) (ascii_form r1)
        else "?"
      | _ => "?"
      end
    else if c0 <? 240 then
      match r0 with
      | String b1 (String b2 r2) =>
        if is_cont b1 && is_cont b2 && (negb (c0 =? 224) || (160 <=? code b1)) then
          put (((c0 - 224) * 64 + (code b1 - 128)) * 64 + (code b2 - 128))
              (ascii_form r2)
        else "?"
      | _ => "?"
      end
    else if c0 <? 245 then
      match r0 with
      | String b1 (String b2 (String b3 r3)) =>
        if is_cont b1 && is_cont b2 && is_cont b3
           && (negb (c0 =? 240) || (144 <=? code b1))
           && (negb (c0 =? 244) || (code b1 <? 144)) then
          put ((((c0 - 240) * 64 + (code b1 - 128)) * 64 + (code b2 - 128)) * 64
               + (code b3 - 128))
              (ascii_form r3)
        else "?"
      | _ => "?"
      end
    else "?"
  end.

Fixpoint lstrip (s : string) : string :=
  match s with
  | String c r => if is_space c then lstrip r else s
  | EmptyString => s
  end.

Fixpoint all_space (s : string) : bool :=
  match s with
  | String c r => is_space c && all_space r
  | EmptyString => true
  end.

(** The digits of an integer literal, with single underscores between
    them: the value read after [acc], the number of digits after [n], and
    what follows the last digit; nothing for an underscore that no digit
    follows. *)
Fixpoint int_run (acc : Z) (n : nat) (s : string) : option (Z * nat * string) :=
  match s with
  | EmptyString => Some (acc, n, s)
  | String c r =>
    if is_digit c then int_run (acc * 10 + (code c - 48)) (S n) r
    else if code c =? 95 then
      match r with
      | String d r' =>
        if is_digit d then int_run (acc * 10 + (code d - 48)) (S n) r' else None
      | EmptyString => None
      end
    else Some (acc, n, s)
  end.

Inductive int_result : Type :=
| IntValue (z : Z)
| IntInvalid
| IntTooLong (digits : nat).

(** [PyLong_FromString] in base 10: white space, a sign, the digits (counted
    against the limit before anything after them is looked at), white
    space. *)
Definition int_literal (s : string) : int_result :=
  let t := lstrip s in
  let '(neg, u) :=
    match t with
    | String c r =>
      if code c =? 45 then (true, r)
      else if code c =? 43 then (false, r)
      else (false, t)
    | EmptyString => (false, t)
    end in
  match u with
  | String c _ =>
    if is_digit c then
      match int_run 0 0 u with
      | Some (z, n, rest) =>
        if (max_str_digits <? n)%nat then IntTooLong n
        else if all_space rest then IntValue (if neg then - z else z)
        else IntInvalid
      | None => IntInvalid
      end
    else IntInvalid
  | EmptyString => IntInvalid
  end.

(** [int(s)] for a [str], base 10.  The message of an invalid literal shows
    the string itself where Python shows its [repr]. *)
Definition py_int (s : string) : outcome Z :=
  match int_literal (ascii_form s) with
  | IntValue z => Ret z
  | IntInvalid =>
    Raise (Exn ValueError ("invalid literal for int() with base 10: '" +:+ s +:+ "'"))
  | IntTooLong n => Raise (too_many_digits n)
  end.

(** *** Floats

    A finite double, [(-1)^fneg * fman * 2^fexp] with [fman] zero or from
    2^52 up to 2^53 (the doubles the service computes are not subnormal),
    and the operations the service applies, each rounding to the nearest
    double, ties to even. *)

Record flt : Type := Flt { fneg : bool; fman : Z; fexp : Z }.

Definition bit_length (a : Z) : Z := if a <=? 0 then 0 else Z.log2 a + 1.

(** [a / (q * 2^e)] as a fraction of two integers. *)
Definition scaled (a q e : Z) : Z * Z :=
  if e <? 0 then (a * 2 ^ (- e), q) else (a, q * 2 ^ e).

(** The integer nearest to [num / den], ties to even. *)
Definition round_half_even (num den : Z) : Z :=
  let n := num / den in
  let r := num mod den in
  if (den <? 2 * r) || ((2 * r =? den) && Z.odd n) then n + 1 else n.

(** The double nearest to [a / q], for positive [a] and [q]. *)
Definition nearest (neg : bool) (a q : Z) : flt :=
  let e0 := bit_length a - bit_length q - 53 in
  let '(num0, den0) := scaled a q e0 in
  let e := if 2 ^ 53 <=? num0 / den0 then e0 + 1 else e0 in
  let '(num, den) := scaled a q e in
  let n := round_half_even num den in
  if n =? 2 ^ 53 then Flt neg (2 ^ 52) (e + 1) else Flt neg n e.

(** [p / q] for two [int]s, [q] positive. *)
Definition int_truediv (p q : Z) : flt :=
  if p =? 0 then Flt false 0 0 else nearest (p <? 0) (Z.abs p) q.

(** [x * n] for a positive [int] [n] that a double holds exactly. *)
Definition flt_mul_int (x : flt) (n : Z) : flt :=
  if fman x =? 0 then x
  else
    let '(num, den) := scaled (fman x * n) 1 (- fexp x) in
    nearest (fneg x) num den.

(** [round(x, ndigits)] for [ndigits] from 0 up: the exact value of [x] is
    rounded to that many decimals, ties to even, and the double nearest to
    the decimal is returned; a zero keeps the sign of [x]. *)
Definition flt_round (x : flt) (ndigits : Z) : flt :=
  let '(num, den) := scaled (fman x * 10 ^ ndigits) 1 (- fexp x) in
  let k := round_half_even num den in
  if k =? 0 then Flt (fneg x) 0 0 else nearest (fneg x) k (10 ^ ndigits).

(** [k] with [10^k <= p / q < 10^(k+1)], for positive [p] and [q]. *)
Definition log10_floor (p q : Z) : Z :=
  if q <=? p then Z.of_nat (int_len (p / q)) - 1
  else - Z.of_nat (int_len ((q + p - 1) / p - 1)).

Definition frac_le (x y : Z * Z) : bool := fst x * snd y <=? fst y * snd x.
Definition frac_lt (x y : Z * Z) : bool := fst x * snd y <? fst y * snd x.

(** [d * 10^x] as a fraction. *)
Definition decimal (d x : Z) : Z * Z :=
  if x <? 0 then (d, 10 ^ (- x)) else (d * 10 ^ x, 1).

(** The decimals of [nd] digits and more, up to 17, next to the value [v]:
    the first that lies within the bounds [lo] and [hi] of what rounds to
    the double (reached when its mantissa is even, [incl]), the nearer to
    [v] of the two candidates when both do; [k] is the decimal exponent of
    [v]. *)
Fixpoint shortest (fuel : nat) (nd : Z) (v lo hi : Z * Z) (incl : bool) (k : Z)
  : Z * Z :=
  match fuel with
  | O => (0, 0)
  | S fuel' =>
    let x := k - (nd - 1) in
    let '(num, den) := if x <? 0 then (fst v * 10 ^ (- x), snd v)
                       else (fst v, snd v * 10 ^ x) in
    let d0 := num / den in
    let r := num mod den in
    let inside (d : Z) : bool :=
      if incl then frac_le lo (decimal d x) && frac_le (decimal d x) hi
      else frac_lt lo (decimal d x) && frac_lt (decimal d x) hi in
    let lower := inside d0 in
    let upper := inside (d0 + 1) in
    if lower && upper then
      if (2 * r <? den) || ((2 * r =? den) && Z.even d0) then (d0, x) else (d0 + 1, x)
    else if lower then (d0, x)
    else if upper then (d0 + 1, x)
    else shortest fuel' (nd + 1) v lo hi incl k
  end.

(** Drop the zeros at the end of the digits. *)
Fixpoint strip_zeros (fuel : nat) (d x : Z) : Z * Z :=
  match fuel with
  | O => (d, x)
  | S fuel' =>
    if (d mod 10 =? 0) && negb (d =? 0) then strip_zeros fuel' (d / 10) (x + 1)
    else (d, x)
  end.

(** The digits of [repr]: the shortest decimal [d * 10^x] that rounds to
    the double [m * 2^e]. *)
Definition flt_digits (m e : Z) : Z * Z :=
  let v := scaled m 1 (- e) in
  let lo := if m =? 2 ^ 52 then scaled (4 * m - 1) 1 (- (e - 2))
            else scaled (2 * m - 1) 1 (- (e - 1)) in
  let hi := scaled (2 * m + 1) 1 (- (e - 1)) in
  let '(d, x) := shortest 17 1 v lo hi (Z.even m) (log10_floor (fst v) (snd v)) in
  strip_zeros 17 d x.

Fixpoint zeros (n : nat) : string :=
  match n with
  | O => ""
  | S n' => String "0" (zeros n')
  end.

(** [repr(x)]: the digits with a point, or with an exponent when the
    point would fall far from them. *)
Definition flt_repr (x : flt) : string :=
  (if fneg x then "-" else "") +:+
  (if fman x =? 0 then "0.0"
   else
     let '(d, x10) := flt_digits (fman x) (fexp x) in
     let ds := str_int d in
     let nd := String.length ds in
     let decpt := x10 + Z.of_nat nd in
     if (16 <? decpt) || (decpt <? -3) then
       let ex := decpt - 1 in
       String.substring 0 1 ds
       +:+ (if (1 <? nd)%nat then "." +:+ String.substring 1 (nd - 1) ds else "")
       +:+ "e" +:+ (if ex <? 0 then "-" else "+")
       +:+ (if Z.abs ex <? 10 then "0" else "") +:+ str_int (Z.abs ex)
     else if decpt <=? 0 then "0." +:+ zeros (Z.to_nat (- decpt)) +:+ ds
     else if Z.of_nat nd <=? decpt then ds +:+ zeros (Z.to_nat decpt - nd) +:+ ".0"
     else String.substring 0 (Z.to_nat decpt) ds +:+ "."
          +:+ String.substring (Z.to_nat decpt) (nd - Z.to_nat decpt) ds).

End Py.

(** ** The [json] module: [dumps] and [loads]

    [json.dumps(o, default=str, ensure_ascii=False)] with the default
    separators, and [json.loads(s)] with the default (strict) decoder. *)

Module Json.
Import Py.

Definition hex_char (n : Z) : ascii :=
  if n <? 10 then chr (48 + n) else chr (87 + n).

(** One character of a string, as [ESCAPE_DCT] of the encoder maps it. *)
Definition escape_char (c : ascii) : string :=
  let n := code c in
  if n =? 34 then String bslash (String dquote "")
  else if n =? 92 then String bslash (String bslash "")
  else if n =? 10 then String bslash "n"
  else if n =? 13 then String bslash "r"
  else if n =? 9 then String bslash "t"
  else if n =? 8 then String bslash "b"
  else if n =? 12 then String bslash "f"
  else if n <? 32 then
    String bslash
      (String "u" (String "0" (String "0"
         (String (hex_char (n / 16)) (String (hex_char (n mod 16)) "")))))
  else String c "".

Fixpoint escape (s : string) : string :=
  match s with
  | EmptyString => ""
  | String c r => escape_char c +:+ escape r
  end.

(** [encode_basestring]: the string between quotes, escaped. *)
Definition encode_basestring (s : string) : string :=
  String dquote (escape s +:+ String dquote "").

(** A dictionary key as the encoder coerces it; no [default] for keys. *)
Definition encode_key (k : pyval) : outcome string :=
  match k with
  | PStr s => Ret s
  | PFloat lit => Ret lit
  | PBool true => Ret "true"
  | PBool false => Ret "false"
  | PNone => Ret "null"
  | PInt z => int_to_str z
  | _ => Raise (Exn TypeError "keys must be str, int, float, bool or None")
  end.

Section Items.
Variable enc : pyval -> outcome string.

(** The items of a list joined by [", "]. *)
Fixpoint encode_items (l : list pyval) : outcome string :=
    match l with
    | [] => Ret ""
    | x :: r =>
      match enc x with
      | Raise e => Raise e
      | Ret sx =>
        match r with
        | [] => Ret sx
        | _ =>
          match encode_items r with
          | Raise e => Raise e
          | Ret sr => Ret (sx +:+ ", " +:+ sr)
          end
        end
      end
    end.

(** The items of a dictionary, [key: value] joined by [", "]. *)
Fixpoint encode_pairs (d : list (pyval * pyval)) : outcome string :=
    match d with
    | [] => Ret ""
    | (k, x) :: r =>
      match encode_key k with
      | Raise e => Raise e
      | Ret sk =>
        match enc x with
        | Raise e => Raise e
        | Ret sx =>
          let item := encode_basestring sk +:+ ": " +:+ sx in
          match r with
          | [] => Ret item
          | _ =>
            match encode_pairs r with
            | Raise e => Raise e
            | Ret sr => Ret (item +:+ ", " +:+ sr)
            end
          end
        end
      end
    end.
End Items.

Definition bracket (l r : ascii) (o : outcome string) : outcome string :=
  match o with
  | Ret s => Ret (String l (s +:+ String r ""))
  | Raise e => Raise e
  end.

Fixpoint encode (o : pyval) : outcome string :=
  match o with
  | PNone => Ret "null"
  | PBool true => Ret "true"
  | PBool false => Ret "false"
  | PInt z => int_to_str z
  | PFloat lit => Ret lit
  | PStr s => Ret (encode_basestring s)
  | PList l => bracket "[" "]" (encode_items encode l)
  | PTuple l => bracket "[" "]" (encode_items encode l)
  | PDict d => bracket "{" "}" (encode_pairs encode d)
  | PObj repr => Ret (encode_basestring repr)      (* default=str *)
  end.

Definition dumps (o : pyval) : outcome string := encode o.

(** *** Decoder *)

Definition is_ws (c : ascii) : bool :=
  let n := code c in (n =? 32) || (n =? 9) || (n =? 10) || (n =? 13).

Fixpoint skip_ws (s : string) : string :=
  match s with
  | String c r => if is_ws c then skip_ws r else s
  | EmptyString => s
  end.

Fixpoint span_digits (s : string) : string * string :=
  match s with
  | String c r =>
    if is_digit c then let '(d, t) := span_digits r in (String c d, t)
    else ("", s)
  | EmptyString => ("", "")
  end.

Definition is_empty (s : string) : bool :=
  match s with EmptyString => true | _ => false end.

(** The integer part: an optional minus sign, then a single 0 or a run of
    digits that does not start with 0. *)
Definition scan_int_part (s : string) : option (string * string) :=
  let '(sign, s1) :=
    match s with
    | String c r => if code c =? 45 then ("-", r) else ("", s)
    | EmptyString => ("", s)
    end in
  match s1 with
  | String c r =>
    if code c =? 48 then Some (sign +:+ "0", r)
    else if is_digit c then
      let '(d, t) := span_digits s1 in Some (sign +:+ d, t)
    else None
  | EmptyString => None
  end.

(** The optional fraction: a dot and at least one digit. *)
Definition scan_frac (s : string) : string * string :=
  match s with
  | String c r =>
    if code c =? 46 then
      let '(d, t) := span_digits r in
      if is_empty d then ("", s) else (String c d, t)
    else ("", s)
  | EmptyString => ("", s)
  end.

(** The optional exponent: e or E, an optional sign, at least one digit. *)
Definition scan_exp (s : string) : string * string :=
  match s with
  | String c r =>
    if (code c =? 101) || (code c =? 69) then
      let '(sg, r1) :=
        match r with
        | String c1 r' =>
          if (code c1 =? 43) || (code c1 =? 45) then (String c1 "", r')
          else ("", r)
        | EmptyString => ("", r)
        end in
      let '(d, t) := span_digits r1 in
      if is_empty d then ("", s) else (String c (sg +:+ d), t)
    else ("", s)
  | EmptyString => ("", s)
  end.

(** The number of digits of an integer part. *)
Definition digit_count (i : string) : nat :=
  match i with
  | String c r => if code c =? 45 then String.length r else String.length i
  | EmptyString => O
  end.

(** A number, if there is one: an [int] when it has neither fraction nor
    exponent, and then [int()] reads it, within its limit. *)
Definition scan_number (s : string) : option (outcome (pyval * string)) :=
  match scan_int_part s with
  | None => None
  | Some (i, r) =>
    let '(f, r1) := scan_frac r in
    let '(e, r2) := scan_exp r1 in
    if is_empty f && is_empty e then
      if (max_str_digits <? digit_count i)%nat then
        Some (Raise (too_many_digits (digit_count i)))
      else
        match NilZero.int_of_string i with
        | Some d => Some (Ret (PInt (Z.of_int d), r2))
        | None => None
        end
    else Some (Ret (PFloat (i +:+ f +:+ e), r2))
  end.

Definition hex_val (c : ascii) : option Z :=
  let n := code c in
  if (48 <=? n) && (n <=? 57) then Some (n - 48)
  else if (97 <=? n) && (n <=? 102) then Some (n - 87)
  else if (65 <=? n) && (n <=? 70) then Some (n - 55)
  else None.

Definition hex4 (a b c d : ascii) : option Z :=
  match hex_val a, hex_val b, hex_val c, hex_val d with
  | Some x, Some y, Some z, Some w => Some (((x * 16 + y) * 16 + z) * 16 + w)
  | _, _, _, _ => None
  end.

(** The character a one-letter escape stands for. *)
Definition unescape (c : ascii) : option ascii :=
  let n := code c in
  if n =? 34 then Some dquote
  else if n =? 92 then Some bslash
  else if n =? 47 then Some "/"%char
  else if n =? 98 then Some (chr 8)
  else if n =? 102 then Some (chr 12)
  else if n =? 110 then Some (chr 10)
  else if n =? 114 then Some (chr 13)
  else if n =? 116 then Some (chr 9)
  else None.

Definition prepend (p : string) (o : option (string * string))
  : option (string * string) :=
  match o with
  | Some (s, r) => Some (p +:+ s, r)
  | None => None
  end.

(** [scanstring]: the input just after the opening quote; the string and
    what follows its closing quote. *)
Fixpoint scan_string (s : string) : option (string * string) :=
  match s with
  | EmptyString => None
  | String c r =>
    if code c =? 34 then Some ("", r)
    else if code c =? 92 then
      match r with
      | EmptyString => None
      | String e r1 =>
        if code e =? 117 then
          match r1 with
          | String h1 (String h2 (String h3 (String h4 r5))) =>
            match hex4 h1 h2 h3 h4 with
            | None => None
            | Some uni =>
              if (55296 <=? uni) && (uni <=? 56319) then
                match r5 with
                | String b (String u (String g1 (String g2 (String g3 (String g4 r11))))) =>
                  if (code b =? 92) && (code u =? 117) then
                    match hex4 g1 g2 g3 g4 with
                    | None => None
                    | Some uni2 =>
                      if (56320 <=? uni2) && (uni2 <=? 57343) then
                        prepend
                          (utf8_encode
                             (65536 + Z.lor (Z.shiftl (uni - 55296) 10) (uni2 - 56320)))
                          (scan_string r11)
                      else prepend (utf8_encode uni) (scan_string r5)
                    end
                  else prepend (utf8_encode uni) (scan_string r5)
                | _ => prepend (utf8_encode uni) (scan_string r5)
                end
              else prepend (utf8_encode uni) (scan_string r5)
            end
          | _ => None
          end
        else
          match unescape e with
          | Some ch => prepend (String ch "") (scan_string r1)
          | None => None
          end
      end
    else if code c <? 32 then None
    else prepend (String c "") (scan_string r)
  end.

(** [s.startswith(p)], with what follows the prefix. *)
Fixpoint strip_prefix (p s : string) : option string :=
  match p with
  | EmptyString => Some s
  | String a p' =>
    match s with
    | String b s' => if Ascii.eqb a b then strip_prefix p' s' else None
    | EmptyString => None
    end
  end.

(** [d[k] = v] on a dictionary with string keys. *)
Fixpoint dict_set (k : string) (v : pyval) (d : list (pyval * pyval))
  : list (pyval * pyval) :=
  match d with
  | [] => [(PStr k, v)]
  | (PStr k', v') :: r =>
    if String.eqb k k' then (PStr k', v) :: r else (PStr k', v') :: dict_set k v r
  | kv :: r => kv :: dict_set k v r
  end.

Definition dict_of_pairs (l : list (string * pyval)) : list (pyval * pyval) :=
  fold_left (fun d kv => dict_set (fst kv) (snd kv) d) l [].

(** The error of the scanner; the position it reports is left out. *)
Definition expecting_value : exn := Exn JSONDecodeError "Expecting value".

Definition literal (p : string) (v : pyval) (s : string)
  (k : outcome (pyval * string)) : outcome (pyval * string) :=
  match strip_prefix p s with
  | Some r => Ret (v, r)
  | None => k
  end.

(** [scan_once], with the array and object loops; [fuel] bounds the
    nesting. *)
Fixpoint scan_once (fuel : nat) (s : string) : outcome (pyval * string) :=
  match fuel with
  | O => Raise expecting_value
  | S n =>
    match s with
    | EmptyString => Raise expecting_value
    | String c r =>
      if code c =? 34 then
        match scan_string r with
        | Some (x, t) => Ret (PStr x, t)
        | None => Raise expecting_value
        end
      else if code c =? 123 then
        match skip_ws r with
        | String c1 r1 =>
          if code c1 =? 125 then Ret (PDict [], r1)
          else
            match scan_members n (String c1 r1) with
            | Ret (l, t) => Ret (PDict (dict_of_pairs l), t)
            | Raise e => Raise e
            end
        | EmptyString => Raise expecting_value
        end
      else if code c =? 91 then
        match skip_ws r with
        | String c1 r1 =>
          if code c1 =? 93 then Ret (PList [], r1)
          else
            match scan_elements n (String c1 r1) with
            | Ret (l, t) => Ret (PList l, t)
            | Raise e => Raise e
            end
        | EmptyString => Raise expecting_value
        end
      else
        literal "null" PNone s
        (literal "true" (PBool true) s
        (literal "false" (PBool false) s
        (match scan_number s with
         | Some o => o
         | None =>
           literal "NaN" (PFloat "NaN") s
           (literal "Infinity" (PFloat "Infinity") s
           (literal "-Infinity" (PFloat "-Infinity") s (Raise expecting_value)))
         end)))
    end
  end
with scan_elements (fuel : nat) (s : string) : outcome (list pyval * string) :=
  match fuel with
  | O => Raise expecting_value
  | S n =>
    match scan_once n s with
    | Raise e => Raise e
    | Ret (v, r) =>
      match skip_ws r with
      | String c r1 =>
        if code c =? 93 then Ret ([v], r1)
        else if code c =? 44 then
          match scan_elements n (skip_ws r1) with
          | Ret (l, t) => Ret (v :: l, t)
          | Raise e => Raise e
          end
        else Raise expecting_value
      | EmptyString => Raise expecting_value
      end
    end
  end
with scan_members (fuel : nat) (s : string)
  : outcome (list (string * pyval) * string) :=
  match fuel with
  | O => Raise expecting_value
  | S n =>
    match s with
    | String q r =>
      if code q =? 34 then
        match scan_string r with
        | None => Raise expecting_value
        | Some (k, r1) =>
          match skip_ws r1 with
          | String c r2 =>
            if code c =? 58 then
              match scan_once n (skip_ws r2) with
              | Raise e => Raise e
              | Ret (v, r3) =>
                match skip_ws r3 with
                | String c1 r4 =>
                  if code c1 =? 125 then Ret ([(k, v)], r4)
                  else if code c1 =? 44 then
                    match scan_members n (skip_ws r4) with
                    | Ret (l, t) => Ret ((k, v) :: l, t)
                    | Raise e => Raise e
                    end
                  else Raise expecting_value
                | EmptyString => Raise expecting_value
                end
              end
            else Raise expecting_value
          | EmptyString => Raise expecting_value
          end
        end
      else Raise expecting_value
    | EmptyString => Raise expecting_value
    end
  end.

(** [json.loads(s)]: one value, surrounded by white space only. *)
Definition loads (s : string) : outcome pyval :=
  match scan_once (S (String.length s)) (skip_ws s) with
  | Ret (v, r) =>
    if is_empty (skip_ws r) then Ret v
    else Raise (Exn JSONDecodeError "Extra data")
  | Raise e => Raise e
  end.

(** *** The values that come back as they are *)











End Json.

(** ** The Redis server and its client

    The server is a dictionary of byte strings with deadlines; a command
    is executed at the server's current time, after the entries whose
    deadline has passed are dropped.  Other clients of the same server are
    not modelled. *)

Module Redis.
Import Py.

Inductive command : Type :=
| SETEX (name : string) (seconds : Z) (value : string)
| GET (name : string)
| DEL (names : list string)
| KEYS (pattern : string)
| INFO
| PING.

Inductive reply : Type :=
| Status (s : string)
| Bulk (b : option string)
| Integer (n : Z)
| Multi (l : list string)
| InfoReply (d : list (string * pyval))
| Error (msg : string).

Record server : Type := Server {
  db : gmap string (string * Z);      (* name -> value, deadline *)
  used_memory_human : string;
  keyspace_hits : Z;
  keyspace_misses : Z
}.

Definition with_db (f : gmap string (string * Z) -> gmap string (string * Z))
  (sv : server) : server :=
  Server (f (db sv)) (used_memory_human sv) (keyspace_hits sv) (keyspace_misses sv).

(** An entry is expired when the time is greater than its deadline. *)
Definition live (now : Z) (e : string * Z) : bool := now <=? snd e.

(** Drop what has expired at time [now]. *)
Definition purge (now : Z) (m : gmap string (string * Z)) : gmap string (string * Z) :=
  filter (fun kv => live now (snd kv) = true) m.

(** Glob matching of KEYS, for patterns made of plain characters, [?] and
    the star (the only ones the cache service sends). *)
Fixpoint glob_match (p s : string) : bool :=
  match p with
  | EmptyString => match s with EmptyString => true | _ => false end
  | String c p' =>
    if Z.eqb (code c) 42 then
      (fix star (t : string) : bool :=
         glob_match p' t
         || match t with String _ t' => star t' | EmptyString => false end) s
    else
      match s with
      | String d s' =>
        ((Z.eqb (code c) 63) || Ascii.eqb c d) && glob_match p' s'
      | EmptyString => false
      end
  end.

Definition del_one (acc : gmap string (string * Z) * Z) (name : string)
  : gmap string (string * Z) * Z :=
  match fst acc !! name with
  | Some _ => (delete name (fst acc), snd acc + 1)
  | None => acc
  end.

Definition info_dict (sv : server) : list (string * pyval) :=
  [("used_memory_human", PStr (used_memory_human sv));
   ("keyspace_hits", PInt (keyspace_hits sv));
   ("keyspace_misses", PInt (keyspace_misses sv))].

(** One command, executed at time [now] (microseconds).  A number of
    seconds that is zero or negative is refused by SETEX; so is, by the
    server, one so large that the deadline in milliseconds does not fit 64
    bits (beyond some 9 * 10^15 seconds), which is not modelled: the round
    trips below are stated for a deadline that fits. *)
Definition exec (now : Z) (c : command) (sv0 : server) : reply * server :=
  let sv := with_db (purge now) sv0 in
  match c with
  | SETEX name seconds value =>
    if seconds <=? 0 then (Error "ERR invalid expire time in 'setex' command", sv)
    else (Status "OK", with_db (insert name (value, now + seconds * 1000000)) sv)
  | GET name =>
    match db sv !! name with
    | Some (v, _) =>
      (Bulk (Some v),
       Server (db sv) (used_memory_human sv) (keyspace_hits sv + 1) (keyspace_misses sv))
    | None =>
      (Bulk None,
       Server (db sv) (used_memory_human sv) (keyspace_hits sv) (keyspace_misses sv + 1))
    end
  | DEL names =>
    let '(m, n) := fold_left del_one names (db sv, 0) in
    (Integer n, with_db (fun _ => m) sv)
  | KEYS pattern =>
    (Multi (filter (fun k => glob_match pattern k = true) (fst <$> map_to_list (db sv))), sv)
  | INFO => (InfoReply (info_dict sv), sv)
  | PING => (Status "PONG", sv)
  end.

(** What the network does to one call of the client. *)
Inductive net_event : Type :=
| NetOk (lag : Z)                    (* the call goes through *)
| NetLost (lag : Z) (e : exn)        (* the request never arrives *)
| NetNoReply (lag : Z) (e : exn).    (* executed, the reply never arrives *)

(** The client object: what [redis.from_url] was given, the address and
    the keyword arguments.  What the library makes of them (it reads
    options in the address too) is its own business; the model covers the
    clients that answer with [bytes], as they do unless the address asks
    for decoded responses. *)
Record client : Type := Client {
  url : string;
  max_connections : Z;
  socket_connect_timeout : Z;
  socket_timeout : Z;
  retry_on_timeout : bool;
  health_check_interval : Z
}.

End Redis.

(** ** The cache service *)

Module Cache.
Import Py Redis.

Record cache_entry : Type := Entry { timestamp : Z; data : pyval }.

Record CacheService : Type := Service {
  redis_client : option client;
  fallback_cache : gmap string cache_entry;
  cache_ttl : Z
}.

(** The process and what it talks to. *)
Record world : Type := World {
  svc : CacheService;                 (* the object [self] *)
  environ : gmap string string;       (* os.environ *)
  clock : Z;                          (* datetime.now(), microseconds *)
  net : list net_event;               (* the fate of the coming remote calls *)
  remote : server;
  wire : list command;                (* commands issued so far, latest first *)
  log : list (string * string);       (* records logged so far, latest first *)
  library : client -> option string   (* redis.from_url: the message of the
                                         ValueError it raises, if it does *)
}.

Definition M (A : Type) : Type := world -> outcome A * world.

Definition ret {A} (a : A) : M A := fun w => (Ret a, w).
Definition raise {A} (e : exn) : M A := fun w => (Raise e, w).
Definition bind {A B} (m : M A) (k : A -> M B) : M B :=
  fun w =>
    match m w with
    | (Ret a, w') => k a w'
    | (Raise e, w') => (Raise e, w')
    end.
Definition lift {A} (o : outcome A) : M A := fun w => (o, w).

Notation "'let*' x ':=' m 'in' k" := (bind m (fun x => k))
  (at level 10, x pattern, m at level 100, k at level 200).

(** [try: body except Exception as e: handler e] *)
Definition try_except {A} (body : M A) (handler : exn -> M A) : M A :=
  fun w =>
    match body w with
    | (Ret a, w') => (Ret a, w')
    | (Raise e, w') => if is_Exception e then handler e w' else (Raise e, w')
    end.

Definition get_self : M CacheService := fun w => (Ret (svc w), w).
Definition set_self (f : CacheService -> CacheService) : M unit :=
  fun w => (Ret tt, World (f (svc w)) (environ w) (clock w) (net w) (remote w) (wire w)
                      (log w) (library w)).
Definition datetime_now : M Z := fun w => (Ret (clock w), w).
Definition logger (level msg : string) : M unit :=
  fun w => (Ret tt, World (svc w) (environ w) (clock w) (net w) (remote w) (wire w)
                      ((level, msg) :: log w) (library w)).
(** [os.getenv(name)] *)
Definition getenv (name : string) : M (option string) :=
  fun w => (Ret (environ w !! name), w).

Definition set_redis_client (c : option client) (s : CacheService) : CacheService :=
  Service c (fallback_cache s) (cache_ttl s).
Definition set_fallback_cache (m : gmap string cache_entry) (s : CacheService) : CacheService :=
  Service (redis_client s) m (cache_ttl s).
Definition set_cache_ttl (t : Z) (s : CacheService) : CacheService :=
  Service (redis_client s) (fallback_cache s) t.

(** The fate of the [i]-th coming remote call; a call the script does not
    cover goes through at once. *)
Definition event_at (i : nat) (evs : list net_event) : net_event :=
  nth i evs (NetOk 0).

Definition lag_of (ev : net_event) : Z :=
  match ev with NetOk l | NetLost l _ | NetNoReply l _ => l end.

Definition goes_through (ev : net_event) : bool :=
  match ev with NetOk _ => true | _ => false end.

(** The exception a failing call raises. *)
Definition fault_of (ev : net_event) : option exn :=
  match ev with NetOk _ => None | NetLost _ e | NetNoReply _ e => Some e end.

(** One round trip of the client: the command is issued, the network
    decides whether it arrives and whether its reply does; an error reply
    is raised as [ResponseError]. *)
Definition redis_call (c : command) : M reply :=
  fun w =>
    let ev := event_at 0 (net w) in
    let t := clock w + lag_of ev in
    let run := exec t c (remote w) in
    let w' sv := World (svc w) (environ w) t (tail (net w)) sv (c :: wire w) (log w)
                   (library w) in
    match ev with
    | NetLost _ e => (Raise e, w' (remote w))
    | NetNoReply _ e => (Raise e, w' (snd run))
    | NetOk _ =>
      match fst run with
      | Error msg => (Raise (Exn ResponseError msg), w' (snd run))
      | r => (Ret r, w' (snd run))
      end
    end.

Definition unexpected {A} : M A :=
  raise (Exn ResponseError "unexpected reply").

(** An argument of a command: a [str], which the client encodes, or
    [bytes], sent as they are. *)
Inductive arg : Type :=
| AStr (s : string)
| ABytes (b : string).

Definition encode_arg (a : arg) : outcome string :=
  match a with
  | AStr s => str_encode s
  | ABytes b => Ret b
  end.

Fixpoint encode_args (l : list arg) : outcome (list string) :=
  match l with
  | [] => Ret []
  | a :: r =>
    match encode_arg a with
    | Raise e => Raise e
    | Ret x =>
      match encode_args r with
      | Raise e => Raise e
      | Ret xs => Ret (x :: xs)
      end
    end
  end.

(** The methods of the client used by the service. *)
Definition setex (name : string) (time : Z) (value : string) : M bool :=
  let* n := lift (str_encode name) in
  let* v := lift (str_encode value) in
  let* r := redis_call (SETEX n time v) in
  match r with
  | Status s => ret (String.eqb s "OK")
  | _ => unexpected
  end.

Definition get (name : string) : M (option string) :=
  let* n := lift (str_encode name) in
  let* r := redis_call (GET n) in
  match r with
  | Bulk b => ret b
  | _ => unexpected
  end.

Definition delete_names (names : list arg) : M Z :=
  let* ns := lift (encode_args names) in
  let* r := redis_call (DEL ns) in
  match r with
  | Integer n => ret n
  | _ => unexpected
  end.

Definition keys (pattern : string) : M (list string) :=
  let* r := redis_call (KEYS pattern) in
  match r with
  | Multi l => ret l
  | _ => unexpected
  end.

Definition info : M (list (string * pyval)) :=
  let* r := redis_call INFO in
  match r with
  | InfoReply d => ret d
  | _ => unexpected
  end.

Definition ping : M bool :=
  let* r := redis_call PING in
  match r with
  | Status _ => ret true
  | _ => unexpected
  end.

Definition has_prefix (p s : string) : bool :=
  match Json.strip_prefix p s with Some _ => true | None => false end.

(** [redis.from_url(url, max_connections=..., ...)]: the library builds
    the client or raises a [ValueError] (an address it cannot parse, an
    option it cannot read, a pool size below zero); nothing is sent yet.
    Which of the two is the library's decision, a component of the world. *)
Definition from_url (u : string) (maxc cto sto : Z) (retry : bool) (hci : Z)
  : M client :=
  fun w =>
    let c := Client u maxc cto sto retry hci in
    match library w c with
    | Some msg => (Raise (Exn ValueError msg), w)
    | None => (Ret c, w)
    end.

(** [int(os.getenv(name, default))] *)
Definition int_getenv (name : string) (default : Z) : M Z :=
  let* v := getenv name in
  match v with
  | Some s => lift (py_int s)
  | None => ret default
  end.

(** The client [__init__] asks for: the address and the pool size come
    from the environment, the rest is fixed. *)
Definition connect : M client :=
  let* u := getenv "REDIS_URL" in
  let redis_url := default "redis://localhost:6379/0" u in
  let* m := int_getenv "REDIS_MAX_CONNECTIONS" 10 in
  from_url redis_url m 5 5 true 30.

(** The [try] block of [__init__]: build the client, keep it, test the
    connection; on failure forget the client. *)
Definition establish : M unit :=
  try_except
    (let* c := connect in
     let* _ := set_self (set_redis_client (Some c)) in
     let* _ := ping in
     logger "INFO" "✅ Redis connection established successfully")
    (fun e =>
     let* _ := logger "WARNING"
       ("⚠️ Redis unavailable, falling back to in-memory cache: " +:+ str_exn e) in
     set_self (set_redis_client None)).

(** [CacheService.__init__] *)
Definition init : M unit :=
  let* _ := set_self (set_redis_client None) in
  let* _ := set_self (set_fallback_cache ∅) in
  let* t := int_getenv "CACHE_TTL_SECONDS" 3600 in
  let* _ := set_self (set_cache_ttl t) in
  establish.

Definition _serialize_data (v : pyval) : M string :=
  try_except
    (lift (Json.dumps v))
    (fun e =>
     let* _ := logger "ERROR" ("Failed to serialize data: " +:+ str_exn e) in
     ret "{}").

Definition _deserialize_data (s : string) : M pyval :=
  try_except
    (lift (Json.loads s))
    (fun e =>
     let* _ := logger "ERROR" ("Failed to deserialize data: " +:+ str_exn e) in
     ret (PDict [])).

Definition namespaced (key : string) : string := "stockxpert:" +:+ key.

Definition set_cache (key : string) (v : pyval) : M bool :=
  try_except
    (let* self := get_self in
     match redis_client self with
     | Some _ =>
       let* serialized_data := _serialize_data v in
       let* result := setex (namespaced key) (cache_ttl self) serialized_data in
       ret result
     | None =>
       let* t := datetime_now in
       let* _ := set_self (fun s =>
         set_fallback_cache (<[key := Entry t v]> (fallback_cache s)) s) in
       ret true
     end)
    (fun e =>
     let* _ := logger "ERROR"
       ("Cache set failed for key '" +:+ key +:+ "': " +:+ str_exn e) in
     ret false).

(** The result is the cached value, or [PNone] for Python's [None]. *)
Definition get_cache (key : string) : M pyval :=
  try_except
    (let* self := get_self in
     match redis_client self with
     | Some _ =>
       let* cached_data := get (namespaced key) in
       match cached_data with
       | Some b =>
         if Json.is_empty b then ret PNone
         else
           let* text := lift (bytes_decode b) in
           _deserialize_data text
       | None => ret PNone
       end
     | None =>
       match fallback_cache self !! key with
       | Some cache_entry =>
         let* t := datetime_now in
         let age := t - timestamp cache_entry in
         if age <? cache_ttl self * 1000000 then ret (data cache_entry)
         else
           let* _ := set_self (fun s =>
             set_fallback_cache (delete key (fallback_cache s)) s) in
           ret PNone
       | None => ret PNone
       end
     end)
    (fun e =>
     let* _ := logger "ERROR"
       ("Cache get failed for key '" +:+ key +:+ "': " +:+ str_exn e) in
     ret PNone).

Definition delete_cache (key : string) : M bool :=
  try_except
    (let* self := get_self in
     match redis_client self with
     | Some _ =>
       let* result := delete_names [AStr (namespaced key)] in
       ret (negb (result =? 0))
     | None =>
       match fallback_cache self !! key with
       | Some _ =>
         let* _ := set_self (fun s =>
           set_fallback_cache (delete key (fallback_cache s)) s) in
         ret true
       | None => ret false
       end
     end)
    (fun e =>
     let* _ := logger "ERROR"
       ("Cache delete failed for key '" +:+ key +:+ "': " +:+ str_exn e) in
     ret false).

Definition clear_cache : M bool :=
  try_except
    (let* self := get_self in
     match redis_client self with
     | Some _ =>
       let* ks := keys "stockxpert:*" in
       match ks with
       | _ :: _ =>
         let* result := delete_names (ABytes <$> ks) in
         ret (negb (result =? 0))
       | [] => ret true
       end
     | None =>
       let* _ := set_self (set_fallback_cache ∅) in
       ret true
     end)
    (fun e =>
     let* _ := logger "ERROR" ("Cache clear failed: " +:+ str_exn e) in
     ret false).

(** [d.get(k, default)] on a dictionary with string keys. *)
Fixpoint dict_get (d : list (string * pyval)) (k : string) (default : pyval) : pyval :=
  match d with
  | [] => default
  | (k', x) :: r => if String.eqb k' k then x else dict_get r k default
  end.

(** [d[k]], [None] standing for [KeyError]. *)
Fixpoint dict_lookup (d : list (string * pyval)) (k : string) : option pyval :=
  match d with
  | [] => None
  | (k', x) :: r => if String.eqb k' k then Some x else dict_lookup r k
  end.

Definition get_cache_stats : M (list (string * pyval)) :=
  try_except
    (let* self := get_self in
     match redis_client self with
     | Some _ =>
       let* i := info in
       let* ks := keys "stockxpert:*" in
       ret [("backend", PStr "redis");
            ("connected", PBool true);
            ("total_keys", PInt (Z.of_nat (length ks)));
            ("memory_usage", dict_get i "used_memory_human" (PStr "Unknown"));
            ("hits", dict_get i "keyspace_hits" (PInt 0));
            ("misses", dict_get i "keyspace_misses" (PInt 0))]
     | None =>
       ret [("backend", PStr "in-memory");
            ("connected", PBool false);
            ("total_keys", PInt (Z.of_nat (size (fallback_cache self))));
            ("memory_usage", PStr "Unknown");
            ("hits", PInt 0);
            ("misses", PInt 0)]
     end)
    (fun e =>
     let* _ := logger "ERROR" ("Failed to get cache stats: " +:+ str_exn e) in
     ret [("error", PStr (str_exn e))]).

(** [round(delta.total_seconds() * 1000, 2)] for a [timedelta] of [us]
    microseconds, as the float it is: [total_seconds()] divides the
    microseconds by 10^6. *)
Definition response_ms (us : Z) : string :=
  flt_repr (flt_round (flt_mul_int (int_truediv us 1000000) 1000) 2).

Definition health_check : M (list (string * pyval)) :=
  try_except
    (let* self := get_self in
     match redis_client self with
     | Some _ =>
       let* start_time := datetime_now in
       let* _ := ping in
       let* end_time := datetime_now in
       let response_time := end_time - start_time in
       ret [("status", PStr "healthy");
            ("backend", PStr "redis");
            ("response_time_ms", PFloat (response_ms response_time));
            ("connected", PBool true)]
     | None =>
       ret [("status", PStr "degraded");
            ("backend", PStr "in-memory");
            ("response_time_ms", PInt 0);
            ("connected", PBool false);
            ("message", PStr "Using fallback in-memory cache")]
     end)
    (fun e =>
     ret [("status", PStr "unhealthy");
          ("backend", PStr "redis");
          ("connected", PBool false);
          ("error", PStr (str_exn e))]).

(** The calls a client of the service can make, and the life of a service
    object: its methods are called, and between calls the rest of the world
    changes freely (time passes, the network and the server change, the
    environment is edited). *)
Inductive request : Type :=
| SetCache (key : string) (v : pyval)
| GetCache (key : string)
| DeleteCache (key : string)
| ClearCache
| GetCacheStats
| HealthCheck.

Inductive response : Type :=
| RBool (b : bool)
| RValue (v : pyval)
| RDict (d : list (string * pyval)).

Definition fmap_M {A B} (f : A -> B) (m : M A) : M B :=
  let* a := m in ret (f a).

Definition serve (r : request) : M response :=
  match r with
  | SetCache k v => fmap_M RBool (set_cache k v)
  | GetCache k => fmap_M RValue (get_cache k)
  | DeleteCache k => fmap_M RBool (delete_cache k)
  | ClearCache => fmap_M RBool clear_cache
  | GetCacheStats => fmap_M RDict get_cache_stats
  | HealthCheck => fmap_M RDict health_check
  end.

Inductive lifetime : world -> world -> Prop :=
| life_start w : lifetime w w
| life_call w w' r : lifetime w w' -> lifetime w (snd (serve r w'))
| life_world w w' w'' : lifetime w w' -> svc w'' = svc w' -> lifetime w w''.

(** Time passes. *)
Definition elapse (d : Z) : M unit :=
  fun w => (Ret tt, World (svc w) (environ w) (clock w + d) (net w) (remote w) (wire w)
                      (log w) (library w)).

(** Every failure of the network is an [Exception]. *)
Definition faults_are_Exceptions (evs : list net_event) : Prop :=
  Forall (fun ev => match fault_of ev with Some e => is_Exception e = true | None => True end) evs.

End Cache.

(** * Properties *)

Import Py Json Redis Cache.

Arguments event_at : simpl never.
Arguments redis_call : simpl never.

(** ** Vocabulary of the statements *)







(** A library that builds the client whatever it is given. *)
Definition obliging (c : client) : option string := None.

(** The world with [m] for the mapping of the service. *)
Definition with_fallback (m : gmap string cache_entry) (w : world) : world :=
  World (set_fallback_cache m (svc w)) (environ w) (clock w) (net w) (remote w)
    (wire w) (log w) (library w).

(** From [w] to [w'] nothing changed but, possibly, the mapping of the
    service. *)
Definition mapping_apart (w w' : world) : Prop :=
  redis_client (svc w') = redis_client (svc w)
  /\ cache_ttl (svc w') = cache_ttl (svc w)
  /\ environ w' = environ w /\ clock w' = clock w /\ net w' = net w
  /\ remote w' = remote w /\ wire w' = wire w /\ log w' = log w.

(** A service on the local fallback, with mapping [m], at time [now]. *)
Definition fallback_world (m : gmap string cache_entry) (ttl now : Z) : world :=
  World (Service None m ttl) ∅ now [] (Server ∅ "0B" 0 0) [] [] obliging.

(** The status entry of a health report. *)
Definition status_of (d : list (string * pyval)) : option pyval := dict_lookup d "status".

(** An outcome that is not a [BaseException] other than an [Exception]. *)
Definition oc_safe {A} (o : outcome A) : Prop :=
  match o with Raise e => is_Exception e = true | Ret _ => True end.

(** The network of [w] fails with [Exception]s only. *)
Definition quiet (w : world) : Prop := faults_are_Exceptions (net w).

(** A computation that raises nothing but [Exception]s. *)
Definition exn_safe {A} (m : M A) : Prop :=
  forall w, quiet w -> quiet (snd (m w)) /\ oc_safe (fst (m w)).

(** A computation that returns. *)
Definition never_raises {A} (m : M A) : Prop :=
  forall w, quiet w -> quiet (snd (m w)) /\ returns (fst (m w)).

(** The world after a command was issued: the command is on the wire, the
    network event is consumed, the clock and the server have moved. *)
Definition sent (c : command) (t : Z) (sv : server) (w : world) : world :=
  World (svc w) (environ w) t (tail (net w)) sv (c :: wire w) (log w) (library w).

(** The counters of the server after a GET. *)
Definition count_get (hit : bool) (sv : server) : server :=
  Server (db sv) (used_memory_human sv)
    (if hit then keyspace_hits sv + 1 else keyspace_hits sv)
    (if hit then keyspace_misses sv else keyspace_misses sv + 1).


(** [set_cache], then [get_cache] on the same key, [d] microseconds later. *)
Definition set_then_get (key : string) (v : pyval) (d : Z) : M pyval :=
  let* _ := set_cache key v in
  let* _ := elapse d in
  get_cache key.

(** The client [__init__] builds in an empty environment. *)
Definition local_client : client :=
  Client "redis://localhost:6379/0" 10 5 5 true 30.

(** A service on Redis, with an empty server, at time [now]. *)
Definition redis_world (ttl now : Z) (evs : list net_event) : world :=
  World (Service (Some local_client) ∅ ttl) ∅ now evs (Server ∅ "0B" 0 0) [] [] obliging.

(** Every run of [m] takes the world to one related by [R]. *)
Definition steps (R : world -> world -> Prop) {A} (m : M A) : Prop :=
  forall w, R w (snd (m w)).

(** The client and the TTL of the service are the same in [w] and [w']. *)
Definition same_selection (w w' : world) : Prop :=
  redis_client (svc w') = redis_client (svc w)
  /\ cache_ttl (svc w') = cache_ttl (svc w).

(** The world in which a service is about to be built. *)
Definition start (env : gmap string string) (evs : list net_event) : world :=
  World (Service None ∅ 0) env 0 evs (Server ∅ "0B" 0 0) [] [] obliging.

(** The error of a connection that cannot be opened. *)
Definition refused : exn := Exn ConnectionError "Connection refused".

(** An environment that sets the three variables. *)
Definition tuned : gmap string string :=
  {["CACHE_TTL_SECONDS" := "60"; "REDIS_URL" := "redis://cache:6380/1";
    "REDIS_MAX_CONNECTIONS" := "4"]}.

(** From [w] to [w'] commands were issued, all of them satisfying [P]. *)
Definition wire_grows (P : command -> Prop) (w w' : world) : Prop :=
  exists new, wire w' = (new ++ wire w)%list /\ Forall P new.

(** The text of an argument. *)
Definition arg_text (a : arg) : string :=
  match a with AStr s | ABytes s => s end.

(** The commands a request may issue: the names they carry start with the
    prefix of the service. *)
Definition allowed (r : request) (c : command) : Prop :=
  match r, c with
  | SetCache k _, SETEX n _ _ => n = "stockxpert:" +:+ k
  | GetCache k, GET n => n = "stockxpert:" +:+ k
  | DeleteCache k, DEL ns => ns = ["stockxpert:" +:+ k]
  | ClearCache, KEYS p => p = "stockxpert:*"
  | ClearCache, DEL ns => Forall (fun n => exists k, n = "stockxpert:" +:+ k) ns
  | GetCacheStats, KEYS p => p = "stockxpert:*"
  | GetCacheStats, INFO => True
  | HealthCheck, PING => True
  | _, _ => False
  end.

(** The entries of the server a call arriving with lag [l] finds. *)
Definition found (w : world) (l : Z) : gmap string (string * Z) :=
  purge (clock w + l) (db (remote w)).

(** The keys KEYS answers with. *)
Definition matching (m : gmap string (string * Z)) : list string :=
  filter (fun k => glob_match "stockxpert:*" k = true) (fst <$> map_to_list m).

(** The world with one more log record. *)
Definition logged (level msg : string) (w : world) : world :=
  World (svc w) (environ w) (clock w) (net w) (remote w) (wire w) ((level, msg) :: log w)
    (library w).


(** A dictionary with a tuple for key: [json.dumps] raises [TypeError]. *)
Definition tuple_keyed : pyval := PDict [(PTuple [PInt 1; PInt 2], PStr "x")].




(** A key the encoder accepts. *)
Definition key_ok (k : pyval) : bool :=
  match k with
  | PStr _ | PFloat _ | PBool _ | PNone | PInt _ => true
  | _ => false
  end.

(** Every dictionary in the value has keys the encoder accepts. *)
Fixpoint keys_ok (v : pyval) : bool :=
  match v with
  | PList l => forallb keys_ok l
  | PTuple l => forallb keys_ok l
  | PDict d => forallb (fun kv => key_ok (fst kv) && keys_ok (snd kv)) d
  | _ => true
  end.

(** Every integer the encoder has to write, as a value or as a key, is
    within the limit of the conversion to text. *)
Fixpoint ints_fit (v : pyval) : bool :=
  match v with
  | PInt z => (int_len z <=? max_str_digits)%nat
  | PList l => forallb ints_fit l
  | PTuple l => forallb ints_fit l
  | PDict d => forallb (fun kv => ints_fit (fst kv) && ints_fit (snd kv)) d
  | _ => true
  end.

(** From [w] to [w'] no entry of a key other than [k] was created or
    changed: the mapping of the service is the same at the other keys, and
    what the server holds under another name it held before. *)
Definition others_kept (k : string) (w w' : world) : Prop :=
  (forall k', k' <> k ->
     fallback_cache (svc w') !! k' = fallback_cache (svc w) !! k')
  /\ (forall n e, n <> namespaced k ->
        db (remote w') !! n = Some e -> db (remote w) !! n = Some e).

(** The commands that write under the name of [k] only. *)
Definition touches_only (k : string) (c : command) : Prop :=
  match c with
  | SETEX n _ _ => n = namespaced k
  | DEL ns => ns = [namespaced k]
  | GET _ | KEYS _ | INFO | PING => True
  end.

(** The value of a string of decimal digits read after [acc]. *)
Fixpoint uint_val (acc : Z) (d : Decimal.uint) : Z :=
  match d with
  | Decimal.Nil => acc
  | Decimal.D0 l => uint_val (acc * 10 + 0) l
  | Decimal.D1 l => uint_val (acc * 10 + 1) l
  | Decimal.D2 l => uint_val (acc * 10 + 2) l
  | Decimal.D3 l => uint_val (acc * 10 + 3) l
  | Decimal.D4 l => uint_val (acc * 10 + 4) l
  | Decimal.D5 l => uint_val (acc * 10 + 5) l
  | Decimal.D6 l => uint_val (acc * 10 + 6) l
  | Decimal.D7 l => uint_val (acc * 10 + 7) l
  | Decimal.D8 l => uint_val (acc * 10 + 8) l
  | Decimal.D9 l => uint_val (acc * 10 + 9) l
  end.

(** A service on Redis whose server holds an entry of the cache and one of
    another application. *)
Definition shared_world : world :=
  World (Service (Some local_client) ∅ 60) ∅ 0 []
    (Server {[ "stockxpert:a" := ("1", 100); "session:7" := ("x", 100) ]} "0B" 0 0)
    [] [] obliging.

(** The same service and server, with [evs] for the coming calls. *)
Definition holding (evs : list net_event) : world :=
  World (Service (Some local_client) ∅ 60) ∅ 0 evs
    (Server {[ "stockxpert:a" := ("1", 100); "session:7" := ("x", 100) ]} "0B" 0 0)
    [] [] obliging.

(** Induction on values, through the lists and dictionaries they hold. *)
Lemma pyval_ind (P : pyval -> Prop)
  (HNone : P PNone) (HBool : forall b, P (PBool b)) (HInt : forall z, P (PInt z))
  (HFloat : forall s, P (PFloat s)) (HStr : forall s, P (PStr s))
  (HList : forall l, Forall P l -> P (PList l))
  (HTuple : forall l, Forall P l -> P (PTuple l))
  (HDict : forall d, Forall (fun kv => P (fst kv) /\ P (snd kv)) d -> P (PDict d))
  (HObj : forall s, P (PObj s)) :
  forall v, P v.
Proof.
  fix IH 1. intros [ | b | z | s | s | l | l | d | s].
  - exact HNone.
  - apply HBool.
  - apply HInt.
  - apply HFloat.
  - apply HStr.
  - apply HList. induction l as [|x l IHl]; constructor; [apply IH | exact IHl].
  - apply HTuple. induction l as [|x l IHl]; constructor; [apply IH | exact IHl].
  - apply HDict. induction d as [|[k x] d IHd]; constructor;
      [split; apply IH | exact IHd].
  - apply HObj.
Qed.

(** ** Equality of values *)


(** ** UTF-8 *)

Lemma append_cons (x : ascii) (a b : string) : String x a +:+ b = String x (a +:+ b).
Proof. reflexivity. Qed.

Lemma append_nil_l (b : string) : "" +:+ b = b.
Proof. reflexivity. Qed.

Lemma append_assoc (a b c : string) : (a +:+ b) +:+ c = a +:+ (b +:+ c).
Proof.
  induction a as [|x a IH]; [reflexivity|].
  now rewrite !append_cons, IH.
Qed.




Lemma utf8_valid_ascii c r : code c < 128 -> utf8_valid (String c r) = utf8_valid r.
Proof.
  intros H. cbn [utf8_valid]. cbv zeta.
  destruct (code c <? 128) eqn:E; [reflexivity | lia].
Qed.









(** ** Strings come back *)



(** ** Integers come back *)

(** Replace the code of a character that is known by its value. *)
Ltac eval_codes :=
  repeat match goal with
         | |- context [code (Ascii ?a ?b ?c ?d ?e ?f ?g ?h)] =>
           let v := eval vm_compute in (code (Ascii a b c d e f g h)) in
           change (code (Ascii a b c d e f g h)) with v
         end.






(** The decimal form of a positive number does not start with a zero. *)
Lemma to_uint_head p u : Pos.to_uint p <> Decimal.D0 u.
Proof.
  intros H.
  pose proof (Unsigned.to_of (Pos.to_uint p)) as Hn.
  rewrite Unsigned.of_to in Hn. cbn in Hn.
  rewrite H, unorm_D0 in Hn.
  unfold Decimal.unorm in Hn. destruct (Decimal.nzhead u) eqn:E; try discriminate.
  - injection Hn as ->. apply (Unsigned.to_uint_nonzero p). exact H.
  - now apply nzhead_nonzero in E.
Qed.




(** ** Floats come back *)

















(** ** Values come back *)
















Ltac norm_app :=
  repeat (rewrite append_assoc || rewrite append_cons || rewrite append_nil_l).










(** ** The local fallback *)

Ltac unfold_service :=
  unfold set_cache, get_cache, delete_cache, clear_cache, get_cache_stats,
    health_check, _serialize_data, _deserialize_data, setex, get, delete_names,
    keys, info, ping, unexpected, try_except, bind, ret, raise, lift, get_self,
    set_self, datetime_now, logger, elapse, fmap_M in *.

(** C3: on the local fallback, [get_cache] returns the stored value while
    the entry is younger than the TTL, and then nothing changes; an entry
    that is not younger is deleted from the mapping, which keeps its other
    keys, and [None] is returned; so is [None] for a key that is not in the
    mapping, and then nothing changes. *)
Theorem get_cache_fallback (w : world) (key : string) :
  redis_client (svc w) = None ->
  match fallback_cache (svc w) !! key with
  | Some e =>
    if clock w - timestamp e <? cache_ttl (svc w) * 1000000
    then get_cache key w = (Ret (data e), w)
    else
      fst (get_cache key w) = Ret PNone
      /\ fallback_cache (svc (snd (get_cache key w))) !! key = None
      /\ (forall k, k <> key ->
            fallback_cache (svc (snd (get_cache key w))) !! k
            = fallback_cache (svc w) !! k)
      /\ mapping_apart w (snd (get_cache key w))
  | None => get_cache key w = (Ret PNone, w)
  end.
Proof.
  destruct w as [[c fc ttl] env clk nt sv wr lg lib]; simpl; intros ->.
  unfold_service; cbn.
  destruct (fc !! key) as [e|]; [|reflexivity].
  cbn. destruct (clk - timestamp e <? ttl * 1000000); [reflexivity|].
  cbn. split; [reflexivity|]. split; [apply lookup_delete_eq|].
  split; [intros k Hk; now apply lookup_delete_ne|].
  repeat split.
Qed.

Lemma get_cache_fallback_witness :
  fst (get_cache "a" (fallback_world {["a" := Entry 10 (PInt 7)]} 60 60000010)) = Ret PNone
  /\ fallback_cache
       (svc (snd (get_cache "a" (fallback_world {["a" := Entry 10 (PInt 7)]} 60 60000010))))
     !! "a" = None.
Proof.
  pose proof (get_cache_fallback
                (fallback_world {["a" := Entry 10 (PInt 7)]} 60 60000010) "a" eq_refl) as H.
  vm_compute in H. destruct H as (H1 & H2 & _). vm_compute. split; [exact H1 | exact H2].
Defined.

(** ** Health *)

Ltac health_finish :=
  repeat match goal with
         | H : Ret _ = Ret _ |- _ => injection H as <-
         | H : Some _ = Some _ |- _ => injection H as <-
         | H : _ /\ _ |- _ => destruct H
         end;
  cbn in *; try congruence; try reflexivity.

(** C4: [health_check] answers "degraded" on the local fallback; with a
    client it answers "healthy", with the time the ping took, when the
    ping goes through, and "unhealthy", with the text of the error, when
    the ping raises (a connection error or a timeout); so it answers
    "healthy" exactly when there is a client and its ping goes through. *)
Theorem health_check_status (w : world) :
  faults_are_Exceptions (net w) ->
  (redis_client (svc w) = None ->
     fst (health_check w) =
       Ret [("status", PStr "degraded"); ("backend", PStr "in-memory");
            ("response_time_ms", PInt 0); ("connected", PBool false);
            ("message", PStr "Using fallback in-memory cache")])
  /\ (redis_client (svc w) <> None -> goes_through (event_at 0 (net w)) = true ->
     exists ms,
       fst (health_check w) =
         Ret [("status", PStr "healthy"); ("backend", PStr "redis");
              ("response_time_ms", PFloat ms); ("connected", PBool true)])
  /\ (forall e, redis_client (svc w) <> None -> fault_of (event_at 0 (net w)) = Some e ->
     fst (health_check w) =
       Ret [("status", PStr "unhealthy"); ("backend", PStr "redis");
            ("connected", PBool false); ("error", PStr (str_exn e))])
  /\ (forall d, fst (health_check w) = Ret d ->
        (status_of d = Some (PStr "healthy") <->
         redis_client (svc w) <> None /\ goes_through (event_at 0 (net w)) = true)).
Proof.
  destruct w as [[c fc ttl] env clk nt sv wr lg lib]; cbn.
  intros Hnet.
  assert (Hev : match fault_of (event_at 0 nt) with
                | Some e => is_Exception e = true | None => True end).
  { destruct nt as [|ev nt']; cbn; [exact I|]. now inversion Hnet. }
  unfold_service; cbn.
  destruct c as [cl|]; cbn.
  - unfold redis_call; cbn.
    destruct (event_at 0 nt) as [l|l e|l e] eqn:Eev; cbn in *;
      [|rewrite Hev; cbn ..];
      repeat split; try congruence; intros; try (eexists; reflexivity); health_finish.
  - repeat split; try congruence; intros; health_finish.
Qed.

(** ** No exception leaves the service *)

Lemma oc_safe_str_encode s : oc_safe (str_encode s).
Proof. unfold str_encode. destruct (utf8_valid s); exact I || reflexivity. Qed.

Lemma oc_safe_bytes_decode s : oc_safe (bytes_decode s).
Proof. unfold bytes_decode. destruct (utf8_valid s); exact I || reflexivity. Qed.

Lemma oc_safe_py_int s : oc_safe (py_int s).
Proof. unfold py_int. destruct (int_literal _); exact I || reflexivity. Qed.

Lemma oc_safe_int_to_str z : oc_safe (int_to_str z).
Proof. unfold int_to_str. destruct (_ <=? _)%nat; exact I || reflexivity. Qed.

Lemma oc_safe_encode_args l : oc_safe (encode_args l).
Proof.
  induction l as [|a l IH]; cbn; [exact I|].
  pose proof (oc_safe_str_encode) as Hs.
  destruct a as [s|b]; cbn.
  - specialize (Hs s). destruct (str_encode s); [|exact Hs].
    destruct (encode_args l); [exact I | exact IH].
  - destruct (encode_args l); [exact I | exact IH].
Qed.

Lemma oc_safe_encode_key k : oc_safe (Json.encode_key k).
Proof.
  destruct k as [ | [|] | | | | | | | ]; cbn;
    try apply oc_safe_int_to_str; exact I || reflexivity.
Qed.

Lemma oc_safe_encode_items (enc : pyval -> outcome string) l :
  Forall (fun v => oc_safe (enc v)) l -> oc_safe (Json.encode_items enc l).
Proof.
  induction 1 as [|x l Hx Hl IH]; cbn; [exact I|].
  destruct (enc x); [|exact Hx].
  destruct l; [exact I|].
  destruct (Json.encode_items enc (p :: l)); [exact I | exact IH].
Qed.

Lemma oc_safe_encode_pairs (enc : pyval -> outcome string) d :
  Forall (fun kv => oc_safe (enc (snd kv))) d -> oc_safe (Json.encode_pairs enc d).
Proof.
  induction 1 as [|[k x] d Hx Hd IH]; cbn; [exact I|].
  pose proof (oc_safe_encode_key k) as Hk.
  destruct (Json.encode_key k); [|exact Hk].
  cbn in Hx. destruct (enc x); [|exact Hx].
  destruct d; [exact I|].
  destruct (Json.encode_pairs enc (p :: d)); [exact I | exact IH].
Qed.

Lemma oc_safe_bracket l r o : oc_safe o -> oc_safe (Json.bracket l r o).
Proof. destruct o; cbn; auto. Qed.

Lemma oc_safe_dumps v : oc_safe (Json.dumps v).
Proof.
  unfold Json.dumps.
  induction v as [ | [|] | z | s | s | l IH | l IH | d IH | s] using pyval_ind;
    cbn; try exact I.
  - apply oc_safe_int_to_str.
  - apply oc_safe_bracket, oc_safe_encode_items, IH.
  - apply oc_safe_bracket, oc_safe_encode_items, IH.
  - apply oc_safe_bracket, oc_safe_encode_pairs.
    eapply Forall_impl; [exact IH|]. intros kv [_ H]. exact H.
Qed.

Lemma oc_safe_literal p v s k : oc_safe k -> oc_safe (Json.literal p v s k).
Proof. intros Hk. unfold Json.literal. destruct (Json.strip_prefix p s); [exact I | exact Hk]. Qed.

Lemma oc_safe_scan_number s o : Json.scan_number s = Some o -> oc_safe o.
Proof.
  unfold Json.scan_number.
  destruct (Json.scan_int_part s) as [[i r]|]; [|discriminate].
  destruct (Json.scan_frac r) as [f r1]. destruct (Json.scan_exp r1) as [e r2].
  destruct (_ && _).
  - destruct (_ <? _)%nat; [intros [= <-]; reflexivity|].
    destruct (NilZero.int_of_string i); [intros [= <-]; exact I | discriminate].
  - intros [= <-]. exact I.
Qed.

Lemma oc_safe_scan n :
  (forall s, oc_safe (Json.scan_once n s))
  /\ (forall s, oc_safe (Json.scan_elements n s))
  /\ (forall s, oc_safe (Json.scan_members n s)).
Proof.
  induction n as [|n (IH1 & IH2 & IH3)]; [repeat split; intros; reflexivity|].
  repeat split; intros s; cbn [Json.scan_once Json.scan_elements Json.scan_members].
  - destruct s as [|c r]; [reflexivity|].
    destruct (code c =? 34).
    { destruct (Json.scan_string r) as [[x t]|]; exact I || reflexivity. }
    destruct (code c =? 123).
    { destruct (Json.skip_ws r) as [|c1 r1]; [reflexivity|].
      destruct (code c1 =? 125); [exact I|].
      specialize (IH3 (String c1 r1)).
      destruct (Json.scan_members n (String c1 r1)) as [[l t]|]; [exact I | exact IH3]. }
    destruct (code c =? 91).
    { destruct (Json.skip_ws r) as [|c1 r1]; [reflexivity|].
      destruct (code c1 =? 93); [exact I|].
      specialize (IH2 (String c1 r1)).
      destruct (Json.scan_elements n (String c1 r1)) as [[l t]|]; [exact I | exact IH2]. }
    repeat apply oc_safe_literal.
    destruct (Json.scan_number (String c r)) as [o|] eqn:E.
    + exact (oc_safe_scan_number _ _ E).
    + repeat apply oc_safe_literal. reflexivity.
  - specialize (IH1 s). destruct (Json.scan_once n s) as [[v r]|]; [|exact IH1].
    destruct (Json.skip_ws r) as [|c r1]; [reflexivity|].
    destruct (code c =? 93); [exact I|].
    destruct (code c =? 44); [|reflexivity].
    specialize (IH2 (Json.skip_ws r1)).
    destruct (Json.scan_elements n (Json.skip_ws r1)) as [[l t]|]; [exact I | exact IH2].
  - destruct s as [|q r]; [reflexivity|].
    destruct (code q =? 34); [|reflexivity].
    destruct (Json.scan_string r) as [[k r1]|]; [|reflexivity].
    destruct (Json.skip_ws r1) as [|c r2]; [reflexivity|].
    destruct (code c =? 58); [|reflexivity].
    specialize (IH1 (Json.skip_ws r2)).
    destruct (Json.scan_once n (Json.skip_ws r2)) as [[v r3]|]; [|exact IH1].
    destruct (Json.skip_ws r3) as [|c1 r4]; [reflexivity|].
    destruct (code c1 =? 125); [exact I|].
    destruct (code c1 =? 44); [|reflexivity].
    specialize (IH3 (Json.skip_ws r4)).
    destruct (Json.scan_members n (Json.skip_ws r4)) as [[l t]|]; [exact I | exact IH3].
Qed.

Lemma oc_safe_loads s : oc_safe (Json.loads s).
Proof.
  unfold Json.loads.
  pose proof (proj1 (oc_safe_scan (S (String.length s))) (Json.skip_ws s)) as H.
  destruct (Json.scan_once _ _) as [[v r]|]; [|exact H].
  destruct (Json.is_empty _); exact I || reflexivity.
Qed.

Lemma never_raises_safe {A} (m : M A) : never_raises m -> exn_safe m.
Proof.
  intros H w Hw. destruct (H w Hw) as [Hq Hr]. split; [exact Hq|].
  destruct (fst (m w)); [exact I | destruct Hr].
Qed.

Lemma nr_ret {A} (a : A) : never_raises (ret a).
Proof. intros w Hw. split; [exact Hw | exact I]. Qed.

Lemma nr_get_self : never_raises get_self.
Proof. intros w Hw. split; [exact Hw | exact I]. Qed.

Lemma nr_set_self f : never_raises (set_self f).
Proof. intros w Hw. split; [exact Hw | exact I]. Qed.

Lemma nr_datetime_now : never_raises datetime_now.
Proof. intros w Hw. split; [exact Hw | exact I]. Qed.

Lemma nr_logger l m : never_raises (logger l m).
Proof. intros w Hw. split; [exact Hw | exact I]. Qed.

Lemma nr_getenv n : never_raises (getenv n).
Proof. intros w Hw. split; [exact Hw | exact I]. Qed.

Lemma nr_bind {A B} (m : M A) (k : A -> M B) :
  never_raises m -> (forall a, never_raises (k a)) -> never_raises (bind m k).
Proof.
  intros Hm Hk w Hw. unfold bind.
  destruct (Hm w Hw) as [Hq Hr]. destruct (m w) as [[a|e] w']; cbn in *.
  - apply Hk, Hq.
  - destruct Hr.
Qed.

Lemma safe_bind {A B} (m : M A) (k : A -> M B) :
  exn_safe m -> (forall a, exn_safe (k a)) -> exn_safe (bind m k).
Proof.
  intros Hm Hk w Hw. unfold bind.
  destruct (Hm w Hw) as [Hq Hr]. destruct (m w) as [[a|e] w']; cbn in *.
  - apply Hk, Hq.
  - split; assumption.
Qed.

Lemma safe_lift {A} (o : outcome A) : oc_safe o -> exn_safe (lift o).
Proof. intros Ho w Hw. split; [exact Hw | exact Ho]. Qed.

Lemma safe_raise {A} e : is_Exception e = true -> exn_safe (@raise A e).
Proof. intros He w Hw. split; [exact Hw | exact He]. Qed.

Lemma quiet_tail evs : faults_are_Exceptions evs -> faults_are_Exceptions (tail evs).
Proof. intros H. destruct evs; [exact H | now inversion H]. Qed.

Lemma quiet_head evs :
  faults_are_Exceptions evs ->
  match fault_of (event_at 0 evs) with Some e => is_Exception e = true | None => True end.
Proof. intros H. destruct evs; [exact I | now inversion H]. Qed.

Lemma safe_redis_call c : exn_safe (redis_call c).
Proof.
  intros w Hw. unfold redis_call.
  pose proof (quiet_head _ Hw) as Hh. pose proof (quiet_tail _ Hw) as Ht.
  destruct (event_at 0 (net w)) as [l|l e|l e]; cbn in *.
  - destruct (fst (exec _ c _)); cbn; split; solve [exact Ht | exact I | reflexivity].
  - split; assumption.
  - split; assumption.
Qed.

Lemma safe_from_url u m cto sto r h : exn_safe (from_url u m cto sto r h).
Proof.
  intros w Hw. unfold from_url.
  destruct (library w _); split; solve [exact Hw | exact I | reflexivity].
Qed.

Lemma nr_try_except {A} (body : M A) (handler : exn -> M A) :
  exn_safe body -> (forall e, never_raises (handler e)) ->
  never_raises (try_except body handler).
Proof.
  intros Hb Hh w Hw. unfold try_except.
  destruct (Hb w Hw) as [Hq Hs]. destruct (body w) as [[a|e] w']; cbn in *.
  - split; [exact Hq | exact I].
  - rewrite Hs. apply Hh, Hq.
Qed.

(** Break a computation of the service into the steps above. *)
Ltac safe_step :=
  match goal with
  | |- never_raises (try_except _ _) => apply nr_try_except; [|intros]
  | |- never_raises (bind _ _) => apply nr_bind; [|intros]
  | |- never_raises (ret _) => apply nr_ret
  | |- never_raises (logger _ _) => apply nr_logger
  | |- never_raises (set_self _) => apply nr_set_self
  | |- exn_safe (bind _ _) => apply safe_bind; [|intros]
  | |- exn_safe (redis_call _) => apply safe_redis_call
  | |- exn_safe (from_url _ _ _ _ _ _) => apply safe_from_url
  | |- exn_safe (lift (str_encode _)) => apply safe_lift, oc_safe_str_encode
  | |- exn_safe (lift (bytes_decode _)) => apply safe_lift, oc_safe_bytes_decode
  | |- exn_safe (lift (encode_args _)) => apply safe_lift, oc_safe_encode_args
  | |- exn_safe (lift (py_int _)) => apply safe_lift, oc_safe_py_int
  | |- exn_safe (lift (Json.dumps _)) => apply safe_lift, oc_safe_dumps
  | |- exn_safe (lift (Json.loads _)) => apply safe_lift, oc_safe_loads
  | |- exn_safe (raise _) => apply safe_raise; reflexivity
  | |- exn_safe (match ?x with _ => _ end) => destruct x
  | |- exn_safe (if ?b then _ else _) => destruct b
  | |- exn_safe (try_except _ _) => apply never_raises_safe
  | |- exn_safe get_self => apply never_raises_safe, nr_get_self
  | |- exn_safe datetime_now => apply never_raises_safe, nr_datetime_now
  | |- exn_safe (getenv _) => apply never_raises_safe, nr_getenv
  | |- exn_safe (ret _) => apply never_raises_safe
  | |- exn_safe (set_self _) => apply never_raises_safe
  | |- exn_safe (logger _ _) => apply never_raises_safe
  end.

Ltac safe_run :=
  unfold set_cache, get_cache, delete_cache, clear_cache, get_cache_stats,
    health_check, _serialize_data, _deserialize_data, setex, get, delete_names,
    keys, info, ping, unexpected;
  repeat safe_step.

Lemma nr_set_cache k v : never_raises (set_cache k v).
Proof. safe_run. Qed.
Lemma nr_get_cache k : never_raises (get_cache k).
Proof. safe_run. Qed.
Lemma nr_delete_cache k : never_raises (delete_cache k).
Proof. safe_run. Qed.
Lemma nr_clear_cache : never_raises clear_cache.
Proof. safe_run. Qed.
Lemma nr_get_cache_stats : never_raises get_cache_stats.
Proof. safe_run. Qed.
Lemma nr_health_check : never_raises health_check.
Proof. safe_run. Qed.

(** C2: whatever the arguments, the state of the service, the contents of
    the server and the failures of the network (connection errors,
    timeouts, error replies: any [Exception]), none of the six operations
    raises; each returns a value. *)
Theorem no_exception_escapes (w : world) (key : string) (v : pyval) :
  faults_are_Exceptions (net w) ->
  returns (fst (set_cache key v w))
  /\ returns (fst (get_cache key w))
  /\ returns (fst (delete_cache key w))
  /\ returns (fst (clear_cache w))
  /\ returns (fst (get_cache_stats w))
  /\ returns (fst (health_check w)).
Proof.
  intros Hw.
  repeat split.
  - apply nr_set_cache, Hw.
  - apply nr_get_cache, Hw.
  - apply nr_delete_cache, Hw.
  - apply nr_clear_cache, Hw.
  - apply nr_get_cache_stats, Hw.
  - apply nr_health_check, Hw.
Qed.

(** ** Calls of the client *)

Lemma redis_call_through w c l :
  event_at 0 (net w) = NetOk l ->
  redis_call c w =
    (match fst (exec (clock w + l) c (remote w)) with
     | Error msg => Raise (Exn ResponseError msg)
     | r => Ret r
     end,
     sent c (clock w + l) (snd (exec (clock w + l) c (remote w))) w).
Proof.
  intros H. unfold redis_call. rewrite H. cbn [lag_of].
  destruct (fst (exec _ c _)); reflexivity.
Qed.

Lemma goes_through_NetOk ev : goes_through ev = true -> ev = NetOk (lag_of ev).
Proof. destruct ev; cbn; congruence. Qed.

Lemma event_at_tail i evs : event_at i (tail evs) = event_at (S i) evs.
Proof. unfold event_at. destruct evs; [now destruct i | reflexivity]. Qed.

Lemma utf8_valid_namespaced k : utf8_valid (namespaced k) = utf8_valid k.
Proof.
  unfold namespaced. norm_app.
  now rewrite !utf8_valid_ascii by (vm_compute; reflexivity).
Qed.

Lemma serialize_native v s w :
  dumps v = Ret s -> _serialize_data v w = (Ret s, w).
Proof. intros H. unfold _serialize_data, try_except, lift. now rewrite H. Qed.

Lemma setex_through w name t value l :
  utf8_valid name = true -> utf8_valid value = true ->
  event_at 0 (net w) = NetOk l -> 0 < t ->
  setex name t value w =
    (Ret true,
     sent (SETEX name t value) (clock w + l)
       (with_db (insert name (value, clock w + l + t * 1000000))
          (with_db (purge (clock w + l)) (remote w))) w).
Proof.
  intros Hn Hv Hev Ht. unfold setex, bind, lift, str_encode. rewrite Hn, Hv.
  rewrite (redis_call_through _ _ _ Hev). cbn [exec].
  destruct (Z.leb_spec t 0); [lia | reflexivity].
Qed.

Lemma get_through w name l :
  utf8_valid name = true -> event_at 0 (net w) = NetOk l ->
  get name w =
    (Ret (fst <$> db (with_db (purge (clock w + l)) (remote w)) !! name),
     sent (GET name) (clock w + l)
       (count_get (bool_decide (is_Some (db (with_db (purge (clock w + l)) (remote w)) !! name)))
          (with_db (purge (clock w + l)) (remote w))) w).
Proof.
  intros Hn Hev. unfold get, bind, lift, str_encode. rewrite Hn.
  rewrite (redis_call_through _ _ _ Hev). cbn [exec].
  destruct (db _ !! name) as [[v d]|] eqn:E; reflexivity.
Qed.

Lemma purge_lookup now (m : gmap string (string * Z)) name v d :
  m !! name = Some (v, d) -> now < d -> purge now m !! name = Some (v, d).
Proof.
  intros Hm Hd. unfold purge. apply map_lookup_filter_Some. split; [exact Hm|].
  cbn. unfold live. cbn. apply Z.leb_le. lia.
Qed.

Lemma purge_lookup_None now (m : gmap string (string * Z)) name :
  m !! name = None -> purge now m !! name = None.
Proof. intros Hm. unfold purge. apply map_lookup_filter_None. now left. Qed.

(** ** Set, then get *)



Lemma get_cache_remote w key s v l d :
  redis_client (svc w) <> None ->
  utf8_valid key = true -> utf8_valid s = true -> is_empty s = false ->
  loads s = Ret v ->
  event_at 0 (net w) = NetOk l ->
  db (remote w) !! namespaced key = Some (s, d) -> clock w + l < d ->
  fst (get_cache key w) = Ret v.
Proof.
  intros Hc Hk Hs He Hl Hev Hdb Hd.
  unfold get_cache, try_except, bind, get_self. cbn [svc].
  destruct (redis_client (svc w)) as [cl|]; [|congruence].
  rewrite get_through with (l := l); [|now rewrite utf8_valid_namespaced | assumption].
  cbn [db with_db]. rewrite (purge_lookup _ _ _ _ _ Hdb Hd). cbn.
  rewrite He. unfold lift, bytes_decode. rewrite Hs.
  now rewrite Hl.
Qed.






(** ** What a call changes *)

Section Steps.
Context (R : world -> world -> Prop) `{!Reflexive R, !Transitive R}.

Lemma steps_ret {A} (a : A) : steps R (ret a).
Proof. intros w. reflexivity. Qed.

Lemma steps_raise {A} e : steps R (@raise A e).
Proof. intros w. reflexivity. Qed.

Lemma steps_lift {A} (o : outcome A) : steps R (lift o).
Proof. intros w. reflexivity. Qed.

Lemma steps_get_self : steps R get_self.
Proof. intros w. reflexivity. Qed.

Lemma steps_datetime_now : steps R datetime_now.
Proof. intros w. reflexivity. Qed.

Lemma steps_getenv n : steps R (getenv n).
Proof. intros w. reflexivity. Qed.

Lemma steps_bind_post {A B} (Q : A -> Prop) (m : M A) (k : A -> M B) :
    (forall w a, fst (m w) = Ret a -> Q a) ->
    steps R m -> (forall a, Q a -> steps R (k a)) -> steps R (bind m k).
Proof.
    intros HQ Hm Hk w. unfold bind.
    specialize (Hm w). specialize (HQ w).
    destruct (m w) as [[a|e] w']; cbn in *; [|exact Hm].
    etransitivity; [exact Hm|]. apply Hk. now apply HQ.
Qed.

Lemma steps_bind {A B} (m : M A) (k : A -> M B) :
    steps R m -> (forall a, steps R (k a)) -> steps R (bind m k).
Proof.
    intros Hm Hk. apply (steps_bind_post (fun _ => True)); auto.
Qed.

Lemma steps_try_except {A} (body : M A) (handler : exn -> M A) :
    steps R body -> (forall e, steps R (handler e)) -> steps R (try_except body handler).
Proof.
    intros Hb Hh w. unfold try_except. specialize (Hb w).
    destruct (body w) as [[a|e] w']; cbn in *; [exact Hb|].
    destruct (is_Exception e); [|exact Hb].
    etransitivity; [exact Hb | apply Hh].
Qed.
End Steps.

(** Break a computation into its steps; [leaf] proves the steps that
    depend on the relation. *)
Ltac solve_rel :=
  try match goal with
      | |- Reflexive _ => typeclasses eauto
      | |- Transitive _ => typeclasses eauto
      end.

Ltac steps_step leaf :=
  match goal with
  | |- steps _ (try_except _ _) => apply steps_try_except; solve_rel; [|intros ?]
  | |- steps _ (bind _ _) => apply steps_bind; solve_rel; [|intros ?]
  | |- steps _ (ret _) => apply steps_ret; solve_rel
  | |- steps _ (raise _) => apply steps_raise; solve_rel
  | |- steps _ (lift _) => apply steps_lift; solve_rel
  | |- steps _ get_self => apply steps_get_self; solve_rel
  | |- steps _ datetime_now => apply steps_datetime_now; solve_rel
  | |- steps _ (getenv _) => apply steps_getenv; solve_rel
  | |- steps _ (match ?x with _ => _ end) => destruct x
  | |- steps _ (if ?b then _ else _) => destruct b
  | |- steps _ _ => leaf
  end.

Ltac unfold_methods :=
  unfold set_cache, get_cache, delete_cache, clear_cache, get_cache_stats,
    health_check, _serialize_data, _deserialize_data, setex, get, delete_names,
    keys, info, ping, unexpected, fmap_M.

(** *** The backend is chosen once *)

#[local] Instance same_selection_refl : Reflexive same_selection.
Proof. intros w. split; reflexivity. Qed.

#[local] Instance same_selection_trans : Transitive same_selection.
Proof. intros a b c [H1 H2] [H3 H4]. split; congruence. Qed.

Lemma redis_call_same_selection c : steps same_selection (redis_call c).
Proof.
  intros w. unfold redis_call.
  destruct (event_at 0 (net w)); [destruct (fst (exec _ c _))|..]; split; reflexivity.
Qed.

Ltac selection_leaf :=
  first [ apply redis_call_same_selection | intros w; split; reflexivity ].

Lemma serve_same_selection r : steps same_selection (serve r).
Proof.
  destruct r; cbn [serve]; unfold_methods; repeat steps_step selection_leaf.
Qed.

Lemma lifetime_same_selection w w' : lifetime w w' -> same_selection w w'.
Proof.
  induction 1 as [w | w w' r _ IH | w w' w'' _ IH Hs].
  - reflexivity.
  - etransitivity; [exact IH | apply serve_same_selection].
  - destruct IH as [H1 H2]. split; rewrite Hs; assumption.
Qed.

(** *** Construction *)

(** [connect] reads the environment and asks the library, and changes
    nothing. *)
Lemma connect_pure w : snd (connect w) = w.
Proof.
  unfold connect, int_getenv, getenv, from_url, bind, lift, ret, raise. cbn.
  destruct (environ w !! "REDIS_MAX_CONNECTIONS") as [s|]; cbn.
  - destruct (py_int s); cbn; [|reflexivity].
    destruct (library w _); reflexivity.
  - destruct (library w _); reflexivity.
Qed.

Lemma connect_environ w w' :
  environ w' = environ w -> library w' = library w ->
  fst (connect w') = fst (connect w).
Proof.
  intros He Hl.
  unfold connect, int_getenv, getenv, from_url, bind, lift, ret, raise. cbn.
  rewrite He.
  destruct (environ w !! "REDIS_MAX_CONNECTIONS") as [s|]; cbn.
  - destruct (py_int s); cbn; [|reflexivity].
    rewrite Hl. destruct (library w _); reflexivity.
  - rewrite Hl. destruct (library w _); reflexivity.
Qed.

(** What [connect] returns: the client the library was asked for, and
    accepted. *)
Lemma connect_client w c :
  fst (connect w) = Ret c ->
  url c = default "redis://localhost:6379/0" (environ w !! "REDIS_URL")
  /\ match environ w !! "REDIS_MAX_CONNECTIONS" with
     | Some s => py_int s = Ret (max_connections c)
     | None => max_connections c = 10
     end
  /\ socket_connect_timeout c = 5 /\ socket_timeout c = 5
  /\ retry_on_timeout c = true /\ health_check_interval c = 30
  /\ library w c = None.
Proof.
  unfold connect, int_getenv, getenv, from_url, bind, lift, ret, raise. cbn.
  destruct (environ w !! "REDIS_MAX_CONNECTIONS") as [s|]; cbn.
  - destruct (py_int s) as [m|e]; cbn; [|discriminate].
    destruct (library w _) eqn:El; cbn; [discriminate|].
    intros [= <-]. cbn. auto 10.
  - destruct (library w _) eqn:El; cbn; [discriminate|].
    intros [= <-]. cbn. auto 10.
Qed.

(** The client [establish] leaves when it returns. *)
Lemma establish_returns w :
  fst (establish w) = Ret tt ->
  cache_ttl (svc (snd (establish w))) = cache_ttl (svc w)
  /\ fallback_cache (svc (snd (establish w))) = fallback_cache (svc w)
  /\ redis_client (svc (snd (establish w))) =
       match fst (connect w) with
       | Ret c => if goes_through (event_at 0 (net w)) then Some c else None
       | Raise _ => None
       end.
Proof.
  unfold establish, try_except, bind.
  pose proof (connect_pure w) as Hp.
  destruct (connect w) as [[c|e] w']; cbn in Hp |- *; subst w'.
  - unfold ping, bind, redis_call, ret, logger, set_self. cbn.
    destruct (event_at 0 (net w)) as [l|l e|l e]; cbn.
    + intros _. auto.
    + destruct (is_Exception e); cbn; [auto | discriminate].
    + destruct (is_Exception e); cbn; [auto | discriminate].
  - unfold logger, set_self, bind. destruct (is_Exception e); cbn; [auto | discriminate].
Qed.

(** The state [__init__] leaves when it returns. *)
Lemma init_returns w :
  fst (init w) = Ret tt ->
  match environ w !! "CACHE_TTL_SECONDS" with
  | Some s => py_int s = Ret (cache_ttl (svc (snd (init w))))
  | None => cache_ttl (svc (snd (init w))) = 3600
  end
  /\ fallback_cache (svc (snd (init w))) = ∅
  /\ redis_client (svc (snd (init w))) =
       match fst (connect w) with
       | Ret c => if goes_through (event_at 0 (net w)) then Some c else None
       | Raise _ => None
       end.
Proof.
  unfold init, int_getenv, getenv, bind, lift, ret, set_self. cbn.
  destruct (environ w !! "CACHE_TTL_SECONDS") as [s|]; cbn.
  - destruct (py_int s) as [t|e]; cbn; [|discriminate].
    intros H. destruct (establish_returns _ H) as (H1 & H2 & H3).
    match type of H3 with
    | context [fst (connect ?x)] => rewrite (connect_environ w x eq_refl eq_refl) in H3
    end.
    cbn in H1, H2, H3.
    repeat split; try assumption. now f_equal.
  - intros H. destruct (establish_returns _ H) as (H1 & H2 & H3).
    match type of H3 with
    | context [fst (connect ?x)] => rewrite (connect_environ w x eq_refl eq_refl) in H3
    end.
    cbn in H1, H2, H3.
    repeat split; assumption.
Qed.

(** *** Statistics *)

Lemma stats_fallback w :
  redis_client (svc w) = None ->
  fst (get_cache_stats w) =
    Ret [("backend", PStr "in-memory"); ("connected", PBool false);
         ("total_keys", PInt (Z.of_nat (size (fallback_cache (svc w)))));
         ("memory_usage", PStr "Unknown"); ("hits", PInt 0); ("misses", PInt 0)].
Proof.
  intros H. unfold get_cache_stats, try_except, bind, get_self, ret. cbn.
  now rewrite H.
Qed.

Lemma stats_through w :
  redis_client (svc w) <> None ->
  goes_through (event_at 0 (net w)) = true ->
  goes_through (event_at 1 (net w)) = true ->
  exists n mem hits misses,
    fst (get_cache_stats w) =
      Ret [("backend", PStr "redis"); ("connected", PBool true);
           ("total_keys", PInt n); ("memory_usage", mem);
           ("hits", hits); ("misses", misses)].
Proof.
  intros Hc H0%goes_through_NetOk H1%goes_through_NetOk.
  unfold get_cache_stats, try_except, bind, get_self. cbn [fst snd svc].
  destruct (redis_client (svc w)) as [cl|]; [|congruence].
  unfold info, keys, bind. rewrite (redis_call_through _ _ _ H0).
  cbn [exec fst snd]. unfold ret. cbv beta iota.
  rewrite redis_call_through with (l := lag_of (event_at 1 (net w)))
    by (cbn; now rewrite event_at_tail).
  cbn. eauto 10.
Qed.

Lemma stats_fails w e :
  redis_client (svc w) <> None ->
  is_Exception e = true ->
  fault_of (event_at 0 (net w)) = Some e
  \/ (goes_through (event_at 0 (net w)) = true
      /\ fault_of (event_at 1 (net w)) = Some e) ->
  fst (get_cache_stats w) = Ret [("error", PStr (str_exn e))].
Proof.
  intros Hc He Hf.
  unfold get_cache_stats, try_except, bind, get_self. cbn [fst snd svc].
  destruct (redis_client (svc w)) as [cl|]; [|congruence].
  unfold info, keys, bind.
  destruct Hf as [Hf | [H0%goes_through_NetOk Hf]].
  - unfold redis_call.
    destruct (event_at 0 (net w)) as [l|l x|l x]; cbn in Hf; [discriminate|..];
      injection Hf as ->; cbn; rewrite He; reflexivity.
  - rewrite (redis_call_through _ _ _ H0). cbn [exec fst snd].
    unfold ret. cbv beta iota.
    unfold redis_call. cbn [net sent]. rewrite event_at_tail.
    destruct (event_at 1 (net w)) as [l|l x|l x]; cbn in Hf; [discriminate|..];
      injection Hf as ->; cbn; rewrite He; reflexivity.
Qed.

(** C5 (amended): when the constructor returns, the service has a client
    exactly when the library built one from what the environment gives and
    the first ping went through; that choice never changes while the
    service lives.  On the local fallback the statistics name the backend
    "in-memory", count the keys of the mapping and report no hit and no
    miss.  With a client they name the backend "redis" when INFO and KEYS
    go through; when one of the two fails they are the text of the error
    and nothing else. *)
Theorem backend_fixed_at_construction (w0 w : world) :
  fst (init w0) = Ret tt ->
  lifetime (snd (init w0)) w ->
  (redis_client (svc (snd (init w0))) <> None <->
     exists c, fst (connect w0) = Ret c /\ goes_through (event_at 0 (net w0)) = true)
  /\ redis_client (svc w) = redis_client (svc (snd (init w0)))
  /\ match redis_client (svc (snd (init w0))) with
     | None =>
       fst (get_cache_stats w) =
         Ret [("backend", PStr "in-memory"); ("connected", PBool false);
              ("total_keys", PInt (Z.of_nat (size (fallback_cache (svc w)))));
              ("memory_usage", PStr "Unknown"); ("hits", PInt 0); ("misses", PInt 0)]
     | Some _ =>
       (goes_through (event_at 0 (net w)) = true ->
        goes_through (event_at 1 (net w)) = true ->
        exists n mem hits misses,
          fst (get_cache_stats w) =
            Ret [("backend", PStr "redis"); ("connected", PBool true);
                 ("total_keys", PInt n); ("memory_usage", mem);
                 ("hits", hits); ("misses", misses)])
       /\ (forall e, is_Exception e = true ->
             fault_of (event_at 0 (net w)) = Some e
             \/ (goes_through (event_at 0 (net w)) = true
                 /\ fault_of (event_at 1 (net w)) = Some e) ->
             fst (get_cache_stats w) = Ret [("error", PStr (str_exn e))])
     end.
Proof.
  intros Hinit Hlife.
  destruct (init_returns w0 Hinit) as (_ & _ & Hclient).
  destruct (lifetime_same_selection _ _ Hlife) as [Hsame _].
  split; [|split; [exact Hsame|]].
  - rewrite Hclient. destruct (fst (connect w0)) as [c|e].
    + destruct (goes_through (event_at 0 (net w0))).
      * split; [eauto | congruence].
      * split; [congruence | intros (c' & _ & [=])].
    + split; [congruence | intros (c' & [=] & _)].
  - destruct (redis_client (svc (snd (init w0)))) as [cl|] eqn:E.
    + assert (Hc : redis_client (svc w) <> None) by congruence.
      split; [now apply stats_through | intros e; now apply stats_fails].
    + now apply stats_fallback.
Qed.

Lemma backend_fixed_at_construction_witness :
  redis_client (svc (snd (serve (GetCache "a") (snd (init (start ∅ []))))))
  = redis_client (svc (snd (init (start ∅ []))))
  /\ exists n mem hits misses,
       fst (get_cache_stats (snd (serve (GetCache "a") (snd (init (start ∅ []))))))
       = Ret [("backend", PStr "redis"); ("connected", PBool true);
              ("total_keys", PInt n); ("memory_usage", mem);
              ("hits", hits); ("misses", misses)].
Proof.
  destruct (backend_fixed_at_construction (start ∅ [])
              (snd (serve (GetCache "a") (snd (init (start ∅ []))))))
    as (_ & Hsame & Hstats).
  - reflexivity.
  - apply (life_call _ _ (GetCache "a")). apply life_start.
  - split; [exact Hsame|].
    change (redis_client (svc (snd (init (start ∅ []))))) with (Some local_client) in Hstats.
    apply (proj1 Hstats); reflexivity.
Defined.

(** C5 as it is stated fails: the server answered at construction, a later
    call to it fails, and the statistics have no "backend" entry; and a
    server that answers is not used when the pool size in the environment
    is not a number. *)
Lemma backend_fixed_counterexample :
  redis_client (svc (snd (init (start ∅ [NetOk 0; NetLost 0 refused])))) = Some local_client
  /\ fst (get_cache_stats (snd (init (start ∅ [NetOk 0; NetLost 0 refused]))))
     = Ret [("error", PStr "Connection refused")]
  /\ dict_lookup [("error", PStr "Connection refused")] "backend" = None
  /\ fst (get_cache_stats (snd (init (start {["REDIS_MAX_CONNECTIONS" := "many"]} []))))
     = Ret [("backend", PStr "in-memory"); ("connected", PBool false);
            ("total_keys", PInt 0); ("memory_usage", PStr "Unknown");
            ("hits", PInt 0); ("misses", PInt 0)].
Proof. repeat split; vm_compute; reflexivity. Qed.

(** ** Configuration *)

(** X15: what the constructor reads and what it asks the library for.  The
    TTL is [CACHE_TTL_SECONDS] as [int()] reads it, 3600 without it.  The
    client it keeps was asked for with the address [REDIS_URL]
    (redis://localhost:6379/0 without it), with [max_connections] the
    integer [REDIS_MAX_CONNECTIONS] (10 without it), and with the same
    other arguments whatever the environment: both timeouts 5, retry on
    timeout, a health check every 30 seconds. *)
Theorem configuration_from_environment (w : world) :
  fst (init w) = Ret tt ->
  match environ w !! "CACHE_TTL_SECONDS" with
  | Some s => py_int s = Ret (cache_ttl (svc (snd (init w))))
  | None => cache_ttl (svc (snd (init w))) = 3600
  end
  /\ forall c, redis_client (svc (snd (init w))) = Some c ->
       url c = default "redis://localhost:6379/0" (environ w !! "REDIS_URL")
       /\ match environ w !! "REDIS_MAX_CONNECTIONS" with
          | Some s => py_int s = Ret (max_connections c)
          | None => max_connections c = 10
          end
       /\ socket_connect_timeout c = 5 /\ socket_timeout c = 5
       /\ retry_on_timeout c = true /\ health_check_interval c = 30.
Proof.
  intros Hinit. destruct (init_returns w Hinit) as (Httl & _ & Hclient).
  split; [exact Httl|].
  intros c Hc. rewrite Hclient in Hc.
  destruct (fst (connect w)) as [c'|e] eqn:E; [|discriminate].
  destruct (goes_through _); [|discriminate].
  injection Hc as ->.
  destruct (connect_client w c E) as (H1 & H2 & H3 & H4 & H5 & H6 & _).
  repeat split; assumption.
Qed.

Lemma configuration_from_environment_witness :
  py_int "60" = Ret (cache_ttl (svc (snd (init (start tuned [])))))
  /\ forall c, redis_client (svc (snd (init (start tuned [])))) = Some c ->
       url c = "redis://cache:6380/1" /\ py_int "4" = Ret (max_connections c).
Proof.
  destruct (configuration_from_environment (start tuned []) eq_refl) as [Ht Hc].
  split; [exact Ht|].
  intros c E. destruct (Hc c E) as (Hu & Hm & _). split; [exact Hu | exact Hm].
Defined.

(** ** Names on the wire *)

Lemma glob_literal c p n :
  code c <> 42 -> code c <> 63 ->
  glob_match (String c p) n = true ->
  exists n', n = String c n' /\ glob_match p n' = true.
Proof.
  intros H1 H2. cbn [glob_match].
  destruct (Z.eqb_spec (code c) 42); [lia|].
  destruct n as [|d n']; [discriminate|].
  destruct (Z.eqb_spec (code c) 63); [lia|]. cbn [orb].
  intros [Hc Hp]%andb_true_iff. apply Ascii.eqb_eq in Hc as ->. eauto.
Qed.

Lemma glob_literal_cons c p n :
  code c <> 42 -> glob_match (String c p) (String c n) = glob_match p n.
Proof.
  intros H1. cbn [glob_match].
  destruct (Z.eqb_spec (code c) 42); [lia|].
  now rewrite Ascii.eqb_refl, orb_true_r.
Qed.

Lemma glob_star n : glob_match "*" n = true.
Proof.
  induction n as [|c n IH]; [reflexivity|].
  change (glob_match "*" (String c n)) with (glob_match "" (String c n) || glob_match "*" n).
  now rewrite IH, orb_true_r.
Qed.

Ltac literal_step H :=
  apply glob_literal in H as (? & -> & H); [| vm_compute; intros [=] ..].

(** The keys the pattern of the service selects are the namespaced ones. *)
Lemma glob_namespaced_iff n :
  glob_match "stockxpert:*" n = true <-> exists k, n = namespaced k.
Proof.
  split.
  - intros H. do 11 literal_step H. eexists. reflexivity.
  - intros [k ->]. unfold namespaced. norm_app.
    rewrite !glob_literal_cons by (vm_compute; intros [=]). apply glob_star.
Qed.

#[local] Instance wire_grows_refl P : Reflexive (wire_grows P).
Proof. intros w. exists []. split; [reflexivity | constructor]. Qed.

#[local] Instance wire_grows_trans P : Transitive (wire_grows P).
Proof.
  intros a b c (n1 & H1 & F1) (n2 & H2 & F2). exists (n2 ++ n1)%list. split.
  - now rewrite H2, H1, app_assoc.
  - now apply Forall_app.
Qed.

Lemma redis_call_wire (P : command -> Prop) c :
  P c -> steps (wire_grows P) (redis_call c).
Proof.
  intros Hc w. exists [c]. split; [|now repeat constructor].
  unfold redis_call.
  destruct (event_at 0 (net w)); [destruct (fst (exec _ c _))|..]; reflexivity.
Qed.

Lemma str_encode_post s (w : world) a : fst (lift (str_encode s) w) = Ret a -> a = s.
Proof. unfold lift, str_encode. cbn. destruct (utf8_valid s); congruence. Qed.

Lemma encode_args_post l (w : world) ns :
  fst (lift (encode_args l) w) = Ret ns -> ns = map arg_text l.
Proof.
  unfold lift. cbn. revert ns. induction l as [|a l IH]; intros ns; cbn.
  - congruence.
  - destruct (encode_arg a) as [x|e] eqn:Ea; [|discriminate].
    destruct (encode_args l) as [xs|e]; [|discriminate].
    intros [= <-]. f_equal; [|now apply IH].
    destruct a as [s|b]; cbn in Ea |- *; [|congruence].
    unfold str_encode in Ea. destruct (utf8_valid s); congruence.
Qed.

Lemma keys_post w ks :
  fst (keys "stockxpert:*" w) = Ret ks -> Forall (fun n => exists k, n = namespaced k) ks.
Proof.
  unfold keys, bind, redis_call.
  destruct (event_at 0 (net w)); cbn; try discriminate.
  intros [= <-]. apply Forall_forall. intros n [Hn _]%list_elem_of_filter.
  now apply glob_namespaced_iff.
Qed.

Lemma arg_text_bytes (l : list string) : map arg_text (ABytes <$> l) = l.
Proof. induction l as [|x l IH]; [reflexivity | cbn in *; now f_equal]. Qed.

Ltac wire_leaf :=
  first [ apply redis_call_wire; cbn; solve [auto]
        | apply redis_call_wire; rewrite arg_text_bytes; assumption
        | intros w; exists []; split; [reflexivity | constructor] ].

Ltac wire_step :=
  match goal with
  | |- steps _ (bind (lift (str_encode ?x)) _) =>
    apply (steps_bind_post _ (fun n => n = x));
    [ solve_rel .. | apply str_encode_post | apply steps_lift; solve_rel | intros ? -> ]
  | |- steps _ (bind (lift (encode_args ?l)) _) =>
    apply (steps_bind_post _ (fun ns => ns = map arg_text l));
    [ solve_rel .. | apply encode_args_post | apply steps_lift; solve_rel | intros ? -> ]
  | |- steps _ (bind (bind (redis_call (KEYS _)) _) _) =>
    apply (steps_bind_post _ (Forall (fun n => exists k, n = namespaced k)));
    [ solve_rel .. | apply keys_post | | intros ? ? ]
  | _ => steps_step wire_leaf
  end.

(** C7: whatever a request sends to the server names its keys under the
    prefix: [set_cache], [get_cache] and [delete_cache] send the key of the
    caller with "stockxpert:" in front and nothing else, and [clear_cache]
    asks for the keys under "stockxpert:*" and deletes only keys that start
    with the prefix. *)
Theorem keys_are_namespaced (r : request) (w : world) :
  exists new, wire (snd (serve r w)) = (new ++ wire w)%list /\ Forall (allowed r) new.
Proof.
  revert w. change (steps (wire_grows (allowed r)) (serve r)).
  destruct r; cbn [serve]; unfold_methods; repeat wire_step.
Qed.

(** ** Delete *)

Lemma with_fallback_same w : with_fallback (fallback_cache (svc w)) w = w.
Proof. now destruct w as [[c fc ttl] env clk nt sv wr lg lib]. Qed.

Lemma delete_cache_fallback w key :
  redis_client (svc w) = None ->
  delete_cache key w =
    (Ret (bool_decide (is_Some (fallback_cache (svc w) !! key))),
     with_fallback (delete key (fallback_cache (svc w))) w).
Proof.
  intros Hc. unfold delete_cache, try_except, bind, get_self, set_self, ret. cbn.
  rewrite Hc. destruct (fallback_cache (svc w) !! key) as [e|] eqn:E; cbn.
  - reflexivity.
  - rewrite delete_id by exact E. now rewrite with_fallback_same.
Qed.

Lemma delete_cache_remote w key l :
  redis_client (svc w) <> None ->
  utf8_valid key = true ->
  event_at 0 (net w) = NetOk l ->
  fst (delete_cache key w) = Ret (bool_decide (is_Some (found w l !! namespaced key)))
  /\ db (remote (snd (delete_cache key w))) = delete (namespaced key) (found w l).
Proof.
  intros Hc Hk Hev.
  unfold delete_cache, try_except, bind, get_self, delete_names, lift, ret. cbn.
  destruct (redis_client (svc w)) as [cl|]; [|congruence].
  unfold str_encode. rewrite utf8_valid_namespaced, Hk. cbn. unfold bind.
  rewrite (redis_call_through _ _ _ Hev). cbn. unfold del_one, found. cbn.
  destruct (purge (clock w + l) (db (remote w)) !! namespaced key) as [e|] eqn:E; cbn.
  - auto.
  - rewrite delete_id by exact E. auto.
Qed.

Lemma delete_cache_fails w key e :
  redis_client (svc w) <> None ->
  utf8_valid key = true ->
  fault_of (event_at 0 (net w)) = Some e -> is_Exception e = true ->
  fst (delete_cache key w) = Ret false
  /\ db (remote (snd (delete_cache key w)))
     = match event_at 0 (net w) with
       | NetNoReply l _ => delete (namespaced key) (found w l)
       | _ => db (remote w)
       end.
Proof.
  intros Hc Hk Hf He.
  unfold delete_cache, try_except, bind, get_self, delete_names, lift, ret. cbn.
  destruct (redis_client (svc w)) as [cl|]; [|congruence].
  unfold str_encode. rewrite utf8_valid_namespaced, Hk. cbn. unfold bind, redis_call.
  destruct (event_at 0 (net w)) as [l|l x|l x]; cbn in Hf; [discriminate|..];
    injection Hf as ->; cbn; rewrite He; cbn; (split; [reflexivity|]).
  - reflexivity.
  - unfold del_one, found. cbn.
    destruct (purge (clock w + l) (db (remote w)) !! namespaced key) as [x|] eqn:E; cbn.
    + reflexivity.
    + now rewrite delete_id by exact E.
Qed.

Lemma delete_cache_unsent w key :
  redis_client (svc w) <> None ->
  utf8_valid key = false ->
  fst (delete_cache key w) = Ret false
  /\ remote (snd (delete_cache key w)) = remote w
  /\ wire (snd (delete_cache key w)) = wire w.
Proof.
  intros Hc Hk.
  unfold delete_cache, try_except, bind, get_self, delete_names, lift, ret. cbn.
  destruct (redis_client (svc w)) as [cl|]; [|congruence].
  unfold str_encode. rewrite utf8_valid_namespaced, Hk. cbn. auto.
Qed.

(** C8 (amended): on the local fallback [delete_cache] takes the key out
    of the mapping and answers whether it was there.  On Redis, when the
    call goes through, the name "stockxpert:" + key leaves the server and
    the answer is whether the server held it; when the call fails the
    answer is false, and the name has left the server all the same if the
    command arrived and only its reply was lost; for a key that cannot be
    encoded nothing is sent and the answer is false. *)
Theorem delete_cache_removes (w : world) (key : string) :
  match redis_client (svc w) with
  | None =>
    fst (delete_cache key w) = Ret (bool_decide (is_Some (fallback_cache (svc w) !! key)))
    /\ fallback_cache (svc (snd (delete_cache key w))) = delete key (fallback_cache (svc w))
  | Some _ =>
    if utf8_valid key then
      match event_at 0 (net w) with
      | NetOk l =>
        fst (delete_cache key w)
        = Ret (bool_decide (is_Some (found w l !! ("stockxpert:" +:+ key))))
        /\ db (remote (snd (delete_cache key w)))
           = delete ("stockxpert:" +:+ key) (found w l)
      | NetLost l e =>
        is_Exception e = true ->
        fst (delete_cache key w) = Ret false
        /\ db (remote (snd (delete_cache key w))) = db (remote w)
      | NetNoReply l e =>
        is_Exception e = true ->
        fst (delete_cache key w) = Ret false
        /\ db (remote (snd (delete_cache key w)))
           = delete ("stockxpert:" +:+ key) (found w l)
      end
    else
      fst (delete_cache key w) = Ret false
      /\ remote (snd (delete_cache key w)) = remote w
      /\ wire (snd (delete_cache key w)) = wire w
  end.
Proof.
  destruct (redis_client (svc w)) as [cl|] eqn:Hc.
  - assert (Hc' : redis_client (svc w) <> None) by congruence.
    destruct (utf8_valid key) eqn:Hk; [|now apply delete_cache_unsent].
    destruct (event_at 0 (net w)) as [l|l e|l e] eqn:Hev.
    + now apply delete_cache_remote.
    + intros He. destruct (delete_cache_fails w key e Hc' Hk) as [H1 H2];
        [now rewrite Hev | exact He |]. rewrite Hev in H2. now split.
    + intros He. destruct (delete_cache_fails w key e Hc' Hk) as [H1 H2];
        [now rewrite Hev | exact He |]. rewrite Hev in H2. now split.
  - now rewrite delete_cache_fallback.
Qed.

Lemma delete_cache_removes_witness :
  fst (delete_cache "a" (holding [])) = Ret true
  /\ db (remote (snd (delete_cache "a" (holding [])))) !! "stockxpert:a" = None.
Proof.
  pose proof (delete_cache_removes (holding []) "a") as H.
  change (redis_client (svc (holding []))) with (Some local_client) in H.
  change (utf8_valid "a") with true in H.
  change (event_at 0 (net (holding []))) with (NetOk 0) in H.
  cbv beta iota in H. destruct H as [H1 H2]. split.
  - rewrite H1. vm_compute. reflexivity.
  - rewrite H2. apply lookup_delete_eq.
Defined.

(** C8 as it is stated fails on Redis when the reply of the server is
    lost: the entry is removed and [delete_cache] returns false. *)
Lemma delete_cache_counterexample :
  db (remote (holding [NetNoReply 0 refused])) !! "stockxpert:a" = Some ("1", 100)
  /\ fst (delete_cache "a" (holding [NetNoReply 0 refused])) = Ret false
  /\ db (remote (snd (delete_cache "a" (holding [NetNoReply 0 refused]))))
     !! "stockxpert:a" = None.
Proof. repeat split; vm_compute; reflexivity. Qed.

(** ** Clear *)

Lemma del_one_fst acc name : fst (del_one acc name) = delete name (fst acc).
Proof.
  unfold del_one. destruct (fst acc !! name) eqn:E; [reflexivity|].
  now rewrite delete_id.
Qed.

Lemma fold_del_lookup names (acc : gmap string (string * Z) * Z) k :
  fst (fold_left del_one names acc) !! k
  = if bool_decide (k ∈ names) then None else fst acc !! k.
Proof.
  revert acc. induction names as [|n names IH]; intros acc; cbn [fold_left].
  - rewrite bool_decide_eq_false_2 by apply not_elem_of_nil. reflexivity.
  - rewrite IH, del_one_fst.
    destruct (decide (k ∈ names)) as [Hin|Hin].
    + rewrite !bool_decide_eq_true_2; [reflexivity | now right | exact Hin].
    + rewrite (bool_decide_eq_false_2 _ Hin).
      destruct (decide (k = n)) as [->|Hne].
      * rewrite bool_decide_eq_true_2 by left. apply lookup_delete_eq.
      * rewrite bool_decide_eq_false_2
          by (intros [?|?]%elem_of_cons; contradiction).
        now apply lookup_delete_ne.
Qed.


Lemma encode_args_bytes (l : list string) : encode_args (ABytes <$> l) = Ret l.
Proof.
  induction l as [|x l IH]; [reflexivity|].
  change (ABytes <$> x :: l) with (ABytes x :: (ABytes <$> l)).
  cbn [encode_args encode_arg]. now rewrite IH.
Qed.

(** A key the server does not hold is absent for [get_cache]. *)
Lemma get_cache_absent w key :
  faults_are_Exceptions (net w) ->
  redis_client (svc w) <> None ->
  db (remote w) !! namespaced key = None ->
  fst (get_cache key w) = Ret PNone.
Proof.
  intros Hq Hc Hdb.
  unfold get_cache, try_except, bind, get_self. cbn [fst snd svc].
  destruct (redis_client (svc w)) as [cl|]; [|congruence].
  unfold get, bind, lift, str_encode.
  destruct (utf8_valid (namespaced key)); [|reflexivity].
  pose proof (quiet_head _ Hq) as Hh.
  destruct (event_at 0 (net w)) as [l|l e|l e] eqn:Hev.
  - rewrite (redis_call_through _ _ _ Hev). cbn [exec db with_db fst snd].
    now rewrite (purge_lookup_None _ _ _ Hdb).
  - unfold redis_call. rewrite Hev. cbn in Hh |- *. now rewrite Hh.
  - unfold redis_call. rewrite Hev. cbn in Hh |- *. now rewrite Hh.
Qed.





(** ** Serialization is for Redis only *)

Lemma serialize_fails v e w :
  dumps v = Raise e ->
  _serialize_data v w
  = (Ret "{}", logged "ERROR" ("Failed to serialize data: " +:+ str_exn e) w).
Proof.
  intros H. pose proof (oc_safe_dumps v) as Hs. rewrite H in Hs. cbn in Hs.
  unfold _serialize_data, try_except, lift, bind, logger, ret. now rewrite H, Hs.
Qed.

Lemma set_cache_fallback w key v :
  redis_client (svc w) = None ->
  set_cache key v w =
    (Ret true,
     with_fallback (<[key := Entry (clock w) v]> (fallback_cache (svc w))) w).
Proof.
  intros Hc. unfold set_cache, try_except, bind, get_self, set_self, datetime_now, ret.
  cbn. now rewrite Hc.
Qed.

Lemma set_cache_degraded w key v e :
  redis_client (svc w) <> None ->
  dumps v = Raise e -> utf8_valid key = true ->
  goes_through (event_at 0 (net w)) = true -> 0 < cache_ttl (svc w) ->
  fst (set_cache key v w) = Ret true
  /\ wire (snd (set_cache key v w))
     = SETEX (namespaced key) (cache_ttl (svc w)) "{}" :: wire w.
Proof.
  intros Hc Hd Hk Hev%goes_through_NetOk Ht.
  unfold set_cache, try_except, bind, get_self. cbn [fst snd svc].
  destruct (redis_client (svc w)) as [cl|]; [|congruence].
  rewrite (serialize_fails _ _ _ Hd).
  rewrite setex_through with (l := lag_of (event_at 0 (net w)));
    [ | now rewrite utf8_valid_namespaced | reflexivity | exact Hev | exact Ht ].
  split; reflexivity.
Qed.

Lemma get_cache_degraded w key s e d :
  redis_client (svc w) <> None ->
  utf8_valid key = true -> utf8_valid s = true -> is_empty s = false ->
  loads s = Raise e ->
  goes_through (event_at 0 (net w)) = true ->
  db (remote w) !! namespaced key = Some (s, d) ->
  clock w + lag_of (event_at 0 (net w)) < d ->
  fst (get_cache key w) = Ret (PDict []).
Proof.
  intros Hc Hk Hs He Hl Hev%goes_through_NetOk Hdb Hd.
  pose proof (oc_safe_loads s) as Hsafe. rewrite Hl in Hsafe. cbn in Hsafe.
  unfold get_cache, try_except, bind, get_self. cbn [svc].
  destruct (redis_client (svc w)) as [cl|]; [|congruence].
  rewrite get_through with (l := lag_of (event_at 0 (net w)));
    [|now rewrite utf8_valid_namespaced | assumption].
  cbn [db with_db]. rewrite (purge_lookup _ _ _ _ _ Hdb Hd). cbn.
  rewrite He. unfold lift, bytes_decode. rewrite Hs.
  now rewrite Hl, Hsafe.
Qed.

(** C10: on the local fallback [set_cache] puts the value itself in the
    mapping, serializes nothing and logs nothing, and [get_cache] returns
    that value, whether JSON can write it or not; the empty payload for a
    value that cannot be serialized and the empty dictionary for a text
    that cannot be parsed are what the Redis path produces. *)
Theorem fallback_keeps_the_object (w : world) (key : string) (v : pyval) :
  redis_client (svc w) = None ->
  set_cache key v w =
    (Ret true,
     with_fallback (<[key := Entry (clock w) v]> (fallback_cache (svc w))) w)
  /\ (forall d, d < cache_ttl (svc w) * 1000000 ->
        get_cache key (snd (elapse d (snd (set_cache key v w))))
        = (Ret v, snd (elapse d (snd (set_cache key v w)))))
  /\ (forall wr e,
        redis_client (svc wr) <> None -> dumps v = Raise e ->
        utf8_valid key = true -> goes_through (event_at 0 (net wr)) = true ->
        0 < cache_ttl (svc wr) ->
        fst (set_cache key v wr) = Ret true
        /\ wire (snd (set_cache key v wr))
           = SETEX (namespaced key) (cache_ttl (svc wr)) "{}" :: wire wr)
  /\ (forall wr s e dl,
        redis_client (svc wr) <> None ->
        utf8_valid key = true -> utf8_valid s = true -> is_empty s = false ->
        loads s = Raise e ->
        goes_through (event_at 0 (net wr)) = true ->
        db (remote wr) !! namespaced key = Some (s, dl) ->
        clock wr + lag_of (event_at 0 (net wr)) < dl ->
        fst (get_cache key wr) = Ret (PDict [])).
Proof.
  intros Hc. split; [now apply set_cache_fallback|]. split; [|split].
  - intros d Hd. rewrite (set_cache_fallback _ _ _ Hc).
    unfold get_cache, try_except, bind, get_self, datetime_now, ret, elapse. cbn.
    rewrite Hc. cbn. rewrite lookup_insert_eq. cbn.
    replace (clock w + d - clock w) with d by lia.
    destruct (Z.ltb_spec d (cache_ttl (svc w) * 1000000)); [reflexivity | lia].
  - intros wr e. apply set_cache_degraded.
  - intros wr s e dl. apply get_cache_degraded.
Qed.

Lemma fallback_keeps_the_object_witness :
  dumps tuple_keyed = Raise (Exn TypeError "keys must be str, int, float, bool or None")
  /\ get_cache "a" (snd (elapse 0 (snd (set_cache "a" tuple_keyed (fallback_world ∅ 60 0)))))
     = (Ret tuple_keyed, snd (elapse 0 (snd (set_cache "a" tuple_keyed (fallback_world ∅ 60 0))))).
Proof.
  split; [reflexivity|].
  refine (proj1 (proj2 (fallback_keeps_the_object (fallback_world ∅ 60 0) "a" tuple_keyed _))
            0 _).
  - reflexivity.
  - reflexivity.
Defined.

(** Witnesses of the statements above. *)

Lemma no_exception_escapes_witness :
  returns (fst (get_cache "a" (redis_world 60 0 [NetLost 5000000 refused]))).
Proof.
  refine (proj1 (proj2 (no_exception_escapes
            (redis_world 60 0 [NetLost 5000000 refused]) "a" PNone _))).
  repeat constructor.
Defined.

Lemma health_check_status_witness :
  fst (health_check (redis_world 60 0 [NetNoReply 5000000 (Exn TimeoutError "Timeout reading from socket")]))
  = Ret [("status", PStr "unhealthy"); ("backend", PStr "redis");
         ("connected", PBool false);
         ("error", PStr "Timeout reading from socket")].
Proof.
  refine (proj1 (proj2 (proj2 (health_check_status
     (redis_world 60 0 [NetNoReply 5000000 (Exn TimeoutError "Timeout reading from socket")])
     _))) (Exn TimeoutError "Timeout reading from socket") _ _).
  - repeat constructor.
  - discriminate.
  - reflexivity.
Defined.

(** ** What JSON gives back *)






(** The encoder fails on a key it does not accept and on an integer
    beyond the limit, and on nothing else. *)
Lemma encode_returns_iff v :
  returns (encode v) <-> keys_ok v = true /\ ints_fit v = true.
Proof.
  induction v as [ | b | z | s | s | l IH | l IH | d IH | s] using pyval_ind;
    cbn [encode keys_ok ints_fit]; try (destruct b); try (cbn; split; auto; fail).
  - unfold int_to_str. destruct (_ <=? _)%nat; cbn; intuition congruence.
  - assert (H : returns (encode_items encode l)
                <-> forallb keys_ok l = true /\ forallb ints_fit l = true).
    { induction IH as [|x l Hx _ IHl]; [cbn; tauto|].
      cbn [encode_items forallb]. rewrite !andb_true_iff.
      destruct (encode x); cbn in Hx |- *; [|tauto].
      destruct l; [cbn in *; tauto|].
      destruct (encode_items encode (p :: l)); cbn in IHl |- *; tauto. }
    destruct (encode_items encode l); cbn in *; tauto.
  - assert (H : returns (encode_items encode l)
                <-> forallb keys_ok l = true /\ forallb ints_fit l = true).
    { induction IH as [|x l Hx _ IHl]; [cbn; tauto|].
      cbn [encode_items forallb]. rewrite !andb_true_iff.
      destruct (encode x); cbn in Hx |- *; [|tauto].
      destruct l; [cbn in *; tauto|].
      destruct (encode_items encode (p :: l)); cbn in IHl |- *; tauto. }
    destruct (encode_items encode l); cbn in *; tauto.
  - assert (H : returns (encode_pairs encode d)
                <-> forallb (fun kv => key_ok (fst kv) && keys_ok (snd kv)) d = true
                    /\ forallb (fun kv => ints_fit (fst kv) && ints_fit (snd kv)) d = true).
    { induction IH as [|[k x] d [_ Hx] _ IHd]; [cbn; tauto|].
      cbn [encode_pairs forallb fst snd] in *.
      rewrite !andb_true_iff.
      assert (Hk : returns (encode_key k) <-> key_ok k = true /\ ints_fit k = true).
      { destruct k as [ | [|] | z | | | | | | ]; cbn; try (intuition congruence).
        unfold int_to_str. destruct (_ <=? _)%nat; cbn; intuition congruence. }
      destruct (encode_key k); cbn in Hk |- *; [|tauto].
      destruct (encode x); cbn in Hx |- *; [|tauto].
      destruct d; [cbn in *; tauto|].
      destruct (encode_pairs encode (p :: d)); cbn in IHd |- *; tauto. }
    destruct (encode_pairs encode d); cbn in *; tauto.
Qed.

(** ** More on set, get and delete *)

(** [_serialize_data] returns a text and touches nothing but the log. *)
Lemma serialize_data_world v w :
  exists s lg,
    _serialize_data v w
    = (Ret s, World (svc w) (environ w) (clock w) (net w) (remote w) (wire w) lg
                (library w))
    /\ (keys_ok v = true -> ints_fit v = true -> dumps v = Ret s /\ lg = log w)
    /\ (keys_ok v = false -> s = "{}" /\ exists e,
          dumps v = Raise e
          /\ lg = ("ERROR", "Failed to serialize data: " +:+ str_exn e) :: log w).
Proof.
  pose proof (encode_returns_iff v) as Hk. fold (dumps v) in Hk.
  destruct (dumps v) as [s|e] eqn:Hd.
  - exists s, (log w). rewrite (serialize_native _ _ _ Hd). split.
    + now destruct w.
    + split; [auto|]. intros Hf. cbn in Hk. destruct Hk as [Hk _].
      destruct (Hk I) as [Hk1 _]. rewrite Hk1 in Hf. discriminate.
  - exists "{}", (("ERROR", "Failed to serialize data: " +:+ str_exn e) :: log w).
    rewrite (serialize_fails _ _ _ Hd). split; [reflexivity|]. split.
    + intros Ht Hi. destruct Hk as [_ Hk]. destruct (Hk (conj Ht Hi)).
    + eauto.
Qed.

(** When [set_cache] returns true on Redis, its call went through and the
    server holds the payload under the namespaced key until the TTL. *)
Lemma set_cache_true w key v :
  redis_client (svc w) <> None ->
  fst (set_cache key v w) = Ret true ->
  goes_through (event_at 0 (net w)) = true
  /\ 0 < cache_ttl (svc w)
  /\ svc (snd (set_cache key v w)) = svc w
  /\ clock (snd (set_cache key v w)) = clock w + lag_of (event_at 0 (net w))
  /\ net (snd (set_cache key v w)) = tail (net w)
  /\ exists s,
       fst (_serialize_data v w) = Ret s
       /\ db (remote (snd (set_cache key v w)))
          = <[namespaced key :=
                (s, clock w + lag_of (event_at 0 (net w)) + cache_ttl (svc w) * 1000000)]>
              (found w (lag_of (event_at 0 (net w)))).
Proof.
  intros Hc.
  destruct (serialize_data_world v w) as (s & lg & Hs & _).
  unfold set_cache, try_except, bind, get_self. cbn [fst snd svc].
  destruct (redis_client (svc w)) as [cl|]; [|congruence].
  rewrite Hs. cbn [fst snd].
  unfold setex, bind, lift, str_encode.
  destruct (utf8_valid (namespaced key)); cbn [fst snd]; [|cbn; discriminate].
  destruct (utf8_valid s); cbn [fst snd]; [|cbn; discriminate].
  unfold redis_call. cbn [net clock remote svc environ wire log].
  destruct (event_at 0 (net w)) as [l|l e|l e]; cbn [lag_of].
  - cbn [exec]. destruct (Z.leb_spec (cache_ttl (svc w)) 0); cbn.
    + discriminate.
    + intros _. repeat split; try lia. exists s. split; reflexivity.
  - destruct (is_Exception e); cbn; discriminate.
  - destruct (is_Exception e); cbn; discriminate.
Qed.

(** A key the server does not hold, or holds expired, when the call
    arrives is absent for [get_cache]. *)
Lemma get_cache_expired w key :
  redis_client (svc w) <> None ->
  goes_through (event_at 0 (net w)) = true ->
  found w (lag_of (event_at 0 (net w))) !! namespaced key = None ->
  fst (get_cache key w) = Ret PNone.
Proof.
  intros Hc Hev%goes_through_NetOk Hdb.
  unfold get_cache, try_except, bind, get_self. cbn [fst snd svc].
  destruct (redis_client (svc w)) as [cl|]; [|congruence].
  unfold get, bind, lift, str_encode.
  destruct (utf8_valid (namespaced key)); [|reflexivity].
  rewrite (redis_call_through _ _ _ Hev). cbn [exec db with_db fst snd].
  unfold found in Hdb. now rewrite Hdb.
Qed.

Lemma purge_expired now (m : gmap string (string * Z)) name v d :
  d < now -> purge now (<[name := (v, d)]> m) !! name = None.
Proof.
  intros Hd. unfold purge. apply map_lookup_filter_None. right.
  intros e. rewrite lookup_insert_eq. intros [= <-]. cbn. unfold live. cbn.
  intros H%Z.leb_le. lia.
Qed.



(** X2: on Redis a value that holds a dictionary with a key that is not a
    string, a number, a boolean or [None] is written as the empty payload:
    [set_cache] returns true, and [get_cache] then returns the empty
    dictionary. *)
Theorem unserializable_comes_back_empty (w : world) (key : string) (v : pyval) (d : Z) :
  redis_client (svc w) <> None ->
  0 < cache_ttl (svc w) ->
  keys_ok v = false -> utf8_valid key = true ->
  goes_through (event_at 0 (net w)) = true ->
  goes_through (event_at 1 (net w)) = true ->
  d + lag_of (event_at 1 (net w)) < cache_ttl (svc w) * 1000000 ->
  fst (set_cache key v w) = Ret true
  /\ fst (set_then_get key v d w) = Ret (PDict []).
Proof.
  intros Hc Ht Hv Hk H0 H1 Hd.
  destruct (serialize_data_world v w) as (s & lg & Hs & _ & Hbad).
  destruct (Hbad Hv) as (-> & e & He & _).
  destruct (set_cache_degraded w key v e Hc He Hk H0 Ht) as [Htrue _].
  split; [exact Htrue|].
  destruct (set_cache_true w key v Hc Htrue) as (_ & _ & Hsvc & Hclock & Hnet & s' & Hs' & Hdb).
  rewrite Hs in Hs'. cbn in Hs'. injection Hs' as <-.
  unfold set_then_get, bind.
  destruct (set_cache key v w) as [[b|e'] w1]; cbn in Htrue, Hsvc, Hclock, Hnet, Hdb;
    [|discriminate].
  unfold elapse. cbn [fst snd].
  eapply get_cache_remote with (s := "{}"); cbn [svc environ clock net remote wire log];
    try reflexivity.
  - rewrite Hsvc. exact Hc.
  - exact Hk.
  - rewrite Hnet, event_at_tail. now apply goes_through_NetOk.
  - rewrite Hdb. apply lookup_insert_eq.
  - rewrite Hclock. lia.
Qed.

Lemma unserializable_comes_back_empty_witness :
  fst (set_then_get "a" tuple_keyed 0 (redis_world 3600 0 [])) = Ret (PDict []).
Proof.
  refine (proj2 (unserializable_comes_back_empty (redis_world 3600 0 []) "a"
                   tuple_keyed 0 _ _ _ _ _ _ _)); try reflexivity.
  discriminate.
Defined.


(** X4: an entry is gone once its TTL has elapsed.  On the local fallback
    [get_cache] then returns [None] and the key leaves the mapping; on
    Redis, after a [set_cache] that returned true, a [get_cache] whose call
    arrives later than the TTL returns [None]. *)
Theorem entry_expires (w : world) (key : string) (v : pyval) (d : Z) :
  match redis_client (svc w) with
  | None => cache_ttl (svc w) * 1000000 <= d
  | Some _ =>
    fst (set_cache key v w) = Ret true
    /\ goes_through (event_at 1 (net w)) = true
    /\ cache_ttl (svc w) * 1000000 < d + lag_of (event_at 1 (net w))
  end ->
  fst (set_then_get key v d w) = Ret PNone
  /\ (redis_client (svc w) = None ->
      fallback_cache (svc (snd (set_then_get key v d w))) !! key = None).
Proof.
  destruct (redis_client (svc w)) as [cl|] eqn:Hc.
  - intros (Htrue & H1 & Hd). split; [|discriminate].
    assert (Hc' : redis_client (svc w) <> None) by congruence.
    destruct (set_cache_true w key v Hc' Htrue)
      as (_ & _ & Hsvc & Hclock & Hnet & s & _ & Hdb).
    unfold set_then_get, bind.
    destruct (set_cache key v w) as [[b|e'] w1]; cbn in Htrue, Hsvc, Hclock, Hnet, Hdb;
      [|discriminate].
    cbn [elapse fst snd].
    apply get_cache_expired; cbn [svc net clock remote].
    + rewrite Hsvc. exact Hc'.
    + rewrite Hnet, event_at_tail. exact H1.
    + unfold found. cbn [clock remote]. rewrite Hdb, Hnet, event_at_tail.
      apply purge_expired. lia.
  - intros Hd. unfold set_then_get, bind.
    rewrite (set_cache_fallback _ _ _ Hc).
    unfold get_cache, try_except, bind, get_self, set_self, datetime_now, ret, elapse. cbn.
    rewrite Hc. cbn. rewrite lookup_insert_eq. cbn.
    replace (clock w + d - clock w) with d by lia.
    destruct (Z.ltb_spec d (cache_ttl (svc w) * 1000000)); [lia|]. cbn.
    split; [reflexivity|]. intros _. apply lookup_delete_eq.
Qed.

Lemma entry_expires_witness :
  fst (set_then_get "a" (PInt 1) 60000000 (fallback_world ∅ 60 0)) = Ret PNone.
Proof.
  refine (proj1 (entry_expires (fallback_world ∅ 60 0) "a" (PInt 1) 60000000 _)).
  cbn. lia.
Defined.

(** X5: after [delete_cache] the key is absent.  On the local fallback a
    later [get_cache] returns [None]; so it does on Redis when the call of
    [delete_cache] went through, whatever happens to the later calls. *)
Theorem delete_then_get (w : world) (key : string) (d : Z) :
  faults_are_Exceptions (net w) ->
  match redis_client (svc w) with
  | None => True
  | Some _ => utf8_valid key = true /\ goes_through (event_at 0 (net w)) = true
  end ->
  fst (get_cache key (snd (elapse d (snd (delete_cache key w))))) = Ret PNone.
Proof.
  intros Hq. destruct (redis_client (svc w)) as [cl|] eqn:Hc.
  - intros [Hk Hev%goes_through_NetOk].
    assert (Hc' : redis_client (svc w) <> None) by congruence.
    destruct (delete_cache_remote w key _ Hc' Hk Hev) as [_ Hdb].
    assert (Hkeep : svc (snd (delete_cache key w)) = svc w
                    /\ net (snd (delete_cache key w)) = tail (net w)).
    { unfold delete_cache, try_except, bind, get_self, delete_names, lift, ret. cbn.
      rewrite Hc. unfold str_encode. rewrite utf8_valid_namespaced, Hk. cbn. unfold bind.
      rewrite (redis_call_through _ _ _ Hev). cbn. unfold del_one. cbn.
      destruct (purge _ _ !! _); cbn; auto. }
    destruct Hkeep as [Hsvc Hnet].
    apply get_cache_absent; cbn [elapse snd svc net remote].
    + rewrite Hnet. now apply quiet_tail.
    + rewrite Hsvc. exact Hc'.
    + rewrite Hdb. apply lookup_delete_eq.
  - intros _. rewrite (delete_cache_fallback _ _ Hc).
    unfold get_cache, try_except, bind, get_self, ret, elapse. cbn.
    rewrite Hc. cbn. now rewrite lookup_delete_eq.
Qed.

Lemma delete_then_get_witness :
  fst (get_cache "a" (snd (elapse 0 (snd (delete_cache "a"
         (snd (set_cache "a" (PInt 1) (redis_world 60 0 []))))))))
  = Ret PNone.
Proof.
  refine (delete_then_get (snd (set_cache "a" (PInt 1) (redis_world 60 0 []))) "a" 0 _ _).
  - constructor.
  - split; reflexivity.
Defined.

(** X6: with a TTL that is not positive nothing can be cached on Redis:
    when the network fails with [Exception]s only, [set_cache] returns
    false, and no entry of the server is created or changed. *)
Theorem nothing_cached_without_ttl (w : world) (key : string) (v : pyval) :
  faults_are_Exceptions (net w) ->
  redis_client (svc w) <> None ->
  cache_ttl (svc w) <= 0 ->
  fst (set_cache key v w) = Ret false
  /\ forall n e, db (remote (snd (set_cache key v w))) !! n = Some e ->
                 db (remote w) !! n = Some e.
Proof.
  intros Hq Hc Ht.
  destruct (serialize_data_world v w) as (s & lg & Hs & _).
  pose proof (quiet_head _ Hq) as Hh.
  unfold set_cache, try_except, bind, get_self. cbn [fst snd svc].
  destruct (redis_client (svc w)) as [cl|]; [|congruence].
  rewrite Hs. cbn [fst snd].
  unfold setex, bind, lift, str_encode, logger, ret.
  destruct (utf8_valid (namespaced key)); cbn [fst snd]; [|cbn; auto].
  destruct (utf8_valid s); cbn [fst snd]; [|cbn; auto].
  unfold redis_call. cbn [net clock remote svc environ wire log].
  destruct (event_at 0 (net w)) as [l|l e|l e]; cbn [lag_of fault_of] in *.
  - cbn [exec]. destruct (Z.leb_spec (cache_ttl (svc w)) 0); [|lia]. cbn.
    split; [reflexivity|]. intros n e. unfold purge.
    now intros [Hin _]%map_lookup_filter_Some.
  - rewrite Hh. cbn. auto.
  - rewrite Hh. cbn. split; [reflexivity|].
    destruct (Z.leb_spec (cache_ttl (svc w)) 0); [|lia]. cbn.
    intros n e'. unfold purge. now intros [Hin _]%map_lookup_filter_Some.
Qed.

Lemma nothing_cached_without_ttl_witness :
  fst (set_cache "a" (PInt 1) (redis_world 0 0 [])) = Ret false.
Proof.
  refine (proj1 (nothing_cached_without_ttl (redis_world 0 0 []) "a" (PInt 1) _ _ _)).
  - constructor.
  - discriminate.
  - reflexivity.
Defined.

(** ** More on construction *)

Lemma nr_establish : never_raises establish.
Proof.
  unfold establish, connect, int_getenv, ping, unexpected. cbv zeta.
  repeat safe_step.
Qed.

Lemma establish_total w :
  faults_are_Exceptions (net w) -> fst (establish w) = Ret tt.
Proof.
  intros Hq. destruct (nr_establish w Hq) as [_ Hr].
  destruct (fst (establish w)) as [[]|e]; [reflexivity | destruct Hr].
Qed.

(** X7: the constructor raises only for a TTL that is not an integer:
    when the network fails with [Exception]s only, [__init__] raises the
    [ValueError] of [int()] if [CACHE_TTL_SECONDS] is set to something that
    is not an integer literal, and returns otherwise, whatever the other
    variables hold and whether or not the server answers. *)
Theorem constructor_raises_only_for_ttl (w : world) :
  faults_are_Exceptions (net w) ->
  match environ w !! "CACHE_TTL_SECONDS" with
  | Some s =>
    match py_int s with
    | Ret _ => fst (init w) = Ret tt
    | Raise e => fst (init w) = Raise e /\ exn_cls e = ValueError
    end
  | None => fst (init w) = Ret tt
  end.
Proof.
  intros Hq.
  unfold init, int_getenv, getenv, bind, lift, ret, set_self. cbn.
  destruct (environ w !! "CACHE_TTL_SECONDS") as [s|]; cbn.
  - unfold py_int. destruct (int_literal _) as [t | | n]; cbn.
    + now apply establish_total.
    + split; reflexivity.
    + split; reflexivity.
  - now apply establish_total.
Qed.

Lemma constructor_raises_only_for_ttl_witness :
  fst (init (start {["CACHE_TTL_SECONDS" := "1h"]} []))
  = Raise (Exn ValueError "invalid literal for int() with base 10: '1h'")
  /\ exn_cls (Exn ValueError "invalid literal for int() with base 10: '1h'") = ValueError.
Proof.
  refine (constructor_raises_only_for_ttl (start {["CACHE_TTL_SECONDS" := "1h"]} []) _).
  constructor.
Defined.

(** ** The local fallback is local *)

(** X8: on the local fallback a request changes nothing but the mapping of
    the service: nothing is sent, the server, the network script, the clock
    and the log are as before. *)
Theorem fallback_is_local (r : request) (w : world) :
  redis_client (svc w) = None ->
  exists m, snd (serve r w) = with_fallback m w.
Proof.
  intros Hc.
  destruct r as [k v|k|k| | | ]; cbn [serve]; unfold fmap_M, bind.
  - rewrite (set_cache_fallback _ _ _ Hc). cbn. eauto.
  - unfold get_cache, try_except, bind, get_self, set_self, datetime_now, ret. cbn.
    rewrite Hc. destruct (fallback_cache (svc w) !! k) as [e|]; cbn.
    + destruct (_ <? _); cbn; [|unfold with_fallback; eauto].
      exists (fallback_cache (svc w)). now rewrite with_fallback_same.
    + exists (fallback_cache (svc w)). now rewrite with_fallback_same.
  - rewrite (delete_cache_fallback _ _ Hc). cbn. eauto.
  - unfold clear_cache, try_except, bind, get_self, set_self, ret. cbn.
    rewrite Hc. cbn. unfold with_fallback. eauto.
  - unfold get_cache_stats, try_except, bind, get_self, ret. cbn.
    rewrite Hc. cbn. exists (fallback_cache (svc w)). now rewrite with_fallback_same.
  - unfold health_check, try_except, bind, get_self, ret. cbn.
    rewrite Hc. cbn. exists (fallback_cache (svc w)). now rewrite with_fallback_same.
Qed.

Lemma fallback_is_local_witness :
  exists m, snd (serve ClearCache (fallback_world {["a" := Entry 0 PNone]} 60 0))
            = with_fallback m (fallback_world {["a" := Entry 0 PNone]} 60 0).
Proof.
  apply (fallback_is_local ClearCache (fallback_world {["a" := Entry 0 PNone]} 60 0)).
  reflexivity.
Defined.

(** ** One key at a time *)

#[local] Instance others_kept_refl k : Reflexive (others_kept k).
Proof. intros w. split; auto. Qed.

#[local] Instance others_kept_trans k : Transitive (others_kept k).
Proof.
  intros a b c [H1 H2] [H3 H4]. split.
  - intros k' Hk. now rewrite H3, H1.
  - intros n e Hn He. apply H2, H4; assumption.
Qed.

Lemma purge_lookup_Some t (m : gmap string (string * Z)) n e :
  purge t m !! n = Some e -> m !! n = Some e.
Proof. unfold purge. now intros [Hin _]%map_lookup_filter_Some. Qed.

Lemma exec_others k c t sv n e :
  touches_only k c -> n <> namespaced k ->
  db (snd (exec t c sv)) !! n = Some e -> db sv !! n = Some e.
Proof.
  intros Hc Hn. destruct c as [name secs val|name|names|pat| | ]; cbn [exec].
  - cbn in Hc. subst name. destruct (secs <=? 0); cbn [snd db with_db].
    + apply purge_lookup_Some.
    + rewrite lookup_insert_ne by congruence. apply purge_lookup_Some.
  - destruct (db _ !! name) as [[v dl]|]; cbn [snd db with_db]; apply purge_lookup_Some.
  - cbn in Hc. subst names. cbn [fold_left]. unfold del_one. cbn [fst snd db with_db].
    destruct (purge t (db sv) !! namespaced k); cbn [snd db with_db].
    + rewrite lookup_delete_ne by congruence. apply purge_lookup_Some.
    + apply purge_lookup_Some.
  - cbn [snd db with_db]. apply purge_lookup_Some.
  - cbn [snd db with_db]. apply purge_lookup_Some.
  - cbn [snd db with_db]. apply purge_lookup_Some.
Qed.

Lemma redis_call_others k c :
  touches_only k c -> steps (others_kept k) (redis_call c).
Proof.
  intros Hc w. split.
  - intros k' _. unfold redis_call.
    destruct (event_at 0 (net w)); [destruct (fst (exec _ c _))|..]; reflexivity.
  - intros n e Hn. unfold redis_call.
    destruct (event_at 0 (net w)) as [l|l x|l x];
      [destruct (fst (exec _ c _))|..]; cbv beta zeta iota; cbn [snd remote].
    all: try (intros He; exact He).
    all: apply (exec_others k); assumption.
Qed.

Ltac others_leaf :=
  first [ apply redis_call_others; cbn; solve [auto]
        | intros w; split;
          [ intros ? ?; cbn;
            rewrite ?lookup_insert_ne, ?lookup_delete_ne by congruence; reflexivity
          | intros ? ? _ ?; assumption ] ].

Ltac others_step :=
  match goal with
  | |- steps _ (bind (lift (str_encode ?x)) _) =>
    apply (steps_bind_post _ (fun n => n = x));
    [ solve_rel .. | apply str_encode_post | apply steps_lift; solve_rel | intros ? -> ]
  | |- steps _ (bind (lift (encode_args ?l)) _) =>
    apply (steps_bind_post _ (fun ns => ns = map arg_text l));
    [ solve_rel .. | apply encode_args_post | apply steps_lift; solve_rel | intros ? -> ]
  | _ => steps_step others_leaf
  end.

(** X9: [set_cache], [get_cache] and [delete_cache] work on one key: they
    leave the mapping of the service as it is at every other key, and they
    create or change no entry of the server under another name. *)
Theorem other_keys_untouched (w : world) (key : string) (v : pyval) :
  others_kept key w (snd (set_cache key v w))
  /\ others_kept key w (snd (get_cache key w))
  /\ others_kept key w (snd (delete_cache key w)).
Proof.
  split; [|split]; revert w.
  - change (steps (others_kept key) (set_cache key v)).
    unfold_methods; repeat others_step.
  - change (steps (others_kept key) (get_cache key)).
    unfold_methods; repeat others_step.
  - change (steps (others_kept key) (delete_cache key)).
    unfold_methods; repeat others_step.
Qed.

(** ** What [clear_cache] spares *)

Lemma purge_lookup_le now (m : gmap string (string * Z)) name v d :
  m !! name = Some (v, d) -> now <= d -> purge now m !! name = Some (v, d).
Proof.
  intros Hm Hd. unfold purge. apply map_lookup_filter_Some. split; [exact Hm|].
  cbn. unfold live. cbn. apply Z.leb_le. lia.
Qed.

Lemma not_matching m n : glob_match "stockxpert:*" n = false -> n ∉ matching m.
Proof.
  intros Hg [Hn _]%list_elem_of_filter. congruence.
Qed.

(** X10: [clear_cache] deletes under the prefix only.  An entry of the
    server whose name does not match "stockxpert:*", and that has not
    expired by the times of the two calls, is still there afterwards,
    unchanged, whatever the network does and whatever the backend. *)
Theorem clear_cache_spares (w : world) (n v : string) (dl : Z) :
  glob_match "stockxpert:*" n = false ->
  db (remote w) !! n = Some (v, dl) ->
  clock w + lag_of (event_at 0 (net w)) <= dl ->
  clock w + lag_of (event_at 0 (net w)) + lag_of (event_at 1 (net w)) <= dl ->
  db (remote (snd (clear_cache w))) !! n = Some (v, dl).
Proof.
  intros Hg Hdb Ht0 Ht1.
  unfold clear_cache, try_except, bind, get_self. cbn [fst snd svc].
  destruct (redis_client (svc w)) as [cl|]; [|exact Hdb].
  unfold keys, bind.
  destruct (event_at 0 (net w)) as [l0|l0 e0|l0 e0] eqn:E0; cbn [lag_of] in Ht0, Ht1.
  - rewrite (redis_call_through _ _ _ E0).
    change (fst (exec (clock w + l0) (KEYS "stockxpert:*") (remote w)))
      with (Multi (matching (found w l0))).
    change (snd (exec (clock w + l0) (KEYS "stockxpert:*") (remote w)))
      with (with_db (purge (clock w + l0)) (remote w)).
    cbv beta iota.
    pose proof (not_matching (found w l0) n Hg) as Hnin.
    destruct (matching (found w l0)) as [|k ks].
    + cbn. now apply purge_lookup_le.
    + unfold ret. cbv beta iota. unfold delete_names, bind, lift.
      rewrite encode_args_bytes.
      assert (E1 : event_at 0 (net (sent (KEYS "stockxpert:*") (clock w + l0)
                     (with_db (purge (clock w + l0)) (remote w)) w))
                   = event_at 1 (net w)) by (cbn; now rewrite event_at_tail).
      destruct (event_at 1 (net w)) as [l1|l1 e1|l1 e1]; cbn [lag_of] in Ht1.
      * rewrite (redis_call_through _ _ _ E1).
        cbn [exec fst snd sent svc environ clock net remote wire log db with_db].
        destruct (fold_left del_one (k :: ks) _) as [m c] eqn:Hf.
        cbn. change m with (fst (m, c)). rewrite <- Hf, fold_del_lookup. cbn [fst].
        rewrite bool_decide_eq_false_2 by exact Hnin.
        apply purge_lookup_le; [apply purge_lookup_le|]; assumption.
      * unfold redis_call. rewrite E1. cbn [fst snd].
        destruct (is_Exception e1); cbn; now apply purge_lookup_le.
      * unfold redis_call. rewrite E1. cbn [fst snd lag_of clock sent remote].
        assert (Hgoal : db (snd (exec (clock w + l0 + l1)
                  (DEL (k :: ks)) (with_db (purge (clock w + l0)) (remote w)))) !! n
                  = Some (v, dl)).
        { cbn [exec fst snd db with_db].
          destruct (fold_left del_one (k :: ks) _) as [m c] eqn:Hf.
          cbn. change m with (fst (m, c)). rewrite <- Hf, fold_del_lookup. cbn [fst].
          rewrite bool_decide_eq_false_2 by exact Hnin.
          apply purge_lookup_le; [apply purge_lookup_le|]; assumption. }
        destruct (is_Exception e1); cbn [fst snd remote logger bind ret]; exact Hgoal.
  - unfold redis_call. rewrite E0. cbn [fst snd].
    destruct (is_Exception e0); cbn; exact Hdb.
  - unfold redis_call. rewrite E0. cbn [fst snd].
    destruct (is_Exception e0); cbn; now apply purge_lookup_le.
Qed.

Lemma clear_cache_spares_witness :
  db (remote (snd (clear_cache shared_world))) !! "session:7" = Some ("x", 100)
  /\ db (remote (snd (clear_cache shared_world))) !! "stockxpert:a" = None.
Proof.
  split.
  - refine (clear_cache_spares shared_world "session:7" "x" 100 _ _ _ _).
    + reflexivity.
    + reflexivity.
    + vm_compute. discriminate.
    + vm_compute. discriminate.
  - vm_compute. reflexivity.
Defined.

(** ** Statistics *)

(** X11: what [get_cache_stats] reports.  On the local fallback: the size
    of the mapping, expired entries included, and nothing changes.  On
    Redis, when INFO and KEYS go through: the number of names under the
    prefix the server holds when it answers, and the memory and the
    counters of the server as they were before the call.  When one of the
    two calls fails: the text of the error alone, which is also logged. *)
Theorem cache_stats_report (w : world) :
  faults_are_Exceptions (net w) ->
  (redis_client (svc w) = None ->
     get_cache_stats w =
       (Ret [("backend", PStr "in-memory"); ("connected", PBool false);
             ("total_keys", PInt (Z.of_nat (size (fallback_cache (svc w)))));
             ("memory_usage", PStr "Unknown"); ("hits", PInt 0); ("misses", PInt 0)],
        w))
  /\ (redis_client (svc w) <> None ->
      goes_through (event_at 0 (net w)) = true ->
      goes_through (event_at 1 (net w)) = true ->
      fst (get_cache_stats w) =
        Ret [("backend", PStr "redis"); ("connected", PBool true);
             ("total_keys",
              PInt (Z.of_nat (length (matching (db (remote (snd (get_cache_stats w))))))));
             ("memory_usage", PStr (used_memory_human (remote w)));
             ("hits", PInt (keyspace_hits (remote w)));
             ("misses", PInt (keyspace_misses (remote w)))])
  /\ (forall e, redis_client (svc w) <> None ->
      fault_of (event_at 0 (net w)) = Some e
      \/ (goes_through (event_at 0 (net w)) = true
          /\ fault_of (event_at 1 (net w)) = Some e) ->
      fst (get_cache_stats w) = Ret [("error", PStr (str_exn e))]
      /\ head (log (snd (get_cache_stats w)))
         = Some ("ERROR", "Failed to get cache stats: " +:+ str_exn e)).
Proof.
  intros Hq.
  pose proof (quiet_head _ Hq) as Hh0.
  pose proof (quiet_head _ (quiet_tail _ Hq)) as Hh1. rewrite event_at_tail in Hh1.
  split; [|split].
  - intros Hc. unfold get_cache_stats, try_except, bind, get_self, ret. cbn.
    rewrite Hc. reflexivity.
  - intros Hc H0%goes_through_NetOk H1%goes_through_NetOk.
    unfold get_cache_stats, try_except, bind, get_self. cbn [fst snd svc].
    destruct (redis_client (svc w)) as [cl|]; [|congruence].
    unfold info, keys, bind. rewrite (redis_call_through _ _ _ H0).
    cbn [exec fst snd]. unfold ret. cbv beta iota.
    rewrite redis_call_through with (l := lag_of (event_at 1 (net w)))
      by (cbn; now rewrite event_at_tail).
    cbn. reflexivity.
  - intros e Hc Hf.
    unfold get_cache_stats, try_except, bind, get_self. cbn [fst snd svc].
    destruct (redis_client (svc w)) as [cl|]; [|congruence].
    unfold info, keys, bind.
    destruct Hf as [Hf | [H0%goes_through_NetOk Hf]].
    + unfold redis_call.
      destruct (event_at 0 (net w)) as [l|l x|l x]; cbn in Hf, Hh0; [discriminate|..];
        injection Hf as ->; cbn; rewrite Hh0; cbn; split; reflexivity.
    + rewrite (redis_call_through _ _ _ H0). cbn [exec fst snd].
      unfold ret. cbv beta iota.
      unfold redis_call. cbn [net sent]. rewrite event_at_tail.
      destruct (event_at 1 (net w)) as [l|l x|l x]; cbn in Hf, Hh1; [discriminate|..];
        injection Hf as ->; cbn; rewrite Hh1; cbn; split; reflexivity.
Qed.

Lemma cache_stats_report_witness :
  fst (get_cache_stats (redis_world 60 0 [NetOk 1000; NetLost 0 refused]))
  = Ret [("error", PStr (str_exn refused))]
  /\ head (log (snd (get_cache_stats (redis_world 60 0 [NetOk 1000; NetLost 0 refused]))))
     = Some ("ERROR", "Failed to get cache stats: " +:+ str_exn refused).
Proof.
  refine (proj2 (proj2 (cache_stats_report
            (redis_world 60 0 [NetOk 1000; NetLost 0 refused]) _)) refused _ _).
  - repeat constructor.
  - discriminate.
  - right. split; reflexivity.
Defined.

(** ** Failures are logged *)

(** X12: [set_cache] returns false only from its handler: there is a
    client, and the last record of the log is the error
    "Cache set failed for key ...". *)
Theorem set_cache_failure_is_logged (w : world) (key : string) (v : pyval) :
  fst (set_cache key v w) = Ret false ->
  redis_client (svc w) <> None
  /\ exists e,
       head (log (snd (set_cache key v w)))
       = Some ("ERROR", "Cache set failed for key '" +:+ key +:+ "': " +:+ str_exn e).
Proof.
  destruct (redis_client (svc w)) as [cl|] eqn:Hc.
  2:{ rewrite (set_cache_fallback _ _ _ Hc). discriminate. }
  intros Hf. split; [discriminate|]. revert Hf.
  destruct (serialize_data_world v w) as (s & lg & Hs & _).
  unfold set_cache, try_except, bind, get_self. cbn [fst snd svc].
  rewrite Hc, Hs. cbn [fst snd].
  unfold setex, bind, lift, str_encode.
  destruct (utf8_valid (namespaced key)); cbn [fst snd];
    [|cbn; intros _; eexists (Exn ValueError _); reflexivity].
  destruct (utf8_valid s); cbn [fst snd];
    [|cbn; intros _; eexists (Exn ValueError _); reflexivity].
  unfold redis_call. cbn [net clock remote svc environ wire log].
  destruct (event_at 0 (net w)) as [l|l e|l e]; cbn [lag_of].
  - cbn [exec]. destruct (cache_ttl (svc w) <=? 0); cbn; [|discriminate].
    intros _. now exists (Exn ResponseError "ERR invalid expire time in 'setex' command").
  - destruct (is_Exception e); cbn; [|discriminate]. intros _. now exists e.
  - destruct (is_Exception e); cbn; [|discriminate]. intros _. now exists e.
Qed.

Lemma set_cache_failure_is_logged_witness :
  exists e,
    head (log (snd (set_cache "a" (PInt 1) (redis_world 60 0 [NetLost 0 refused]))))
    = Some ("ERROR", "Cache set failed for key '" +:+ "a" +:+ "': " +:+ str_exn e).
Proof.
  refine (proj2 (set_cache_failure_is_logged
            (redis_world 60 0 [NetLost 0 refused]) "a" (PInt 1) _)).
  reflexivity.
Defined.

(** ** What [get_cache] makes of a payload *)



(** ** The TTL is any integer *)

Lemma ascii_form_uint d :
  ascii_form (NilEmpty.string_of_uint d) = NilEmpty.string_of_uint d.
Proof.
  induction d; cbn [NilEmpty.string_of_uint ascii_form];
    [reflexivity | eval_codes; cbn; now rewrite IHd ..].
Qed.

Lemma int_run_uint d acc n :
  int_run acc n (NilEmpty.string_of_uint d)
  = Some (uint_val acc d, (n + Decimal.nb_digits d)%nat, "").
Proof.
  revert acc n. induction d; intros acc n; cbn [NilEmpty.string_of_uint uint_val Decimal.nb_digits];
    [now rewrite Nat.add_0_r
    | cbn [int_run]; unfold is_digit; eval_codes; cbn; rewrite IHd, Nat.add_succ_r;
      reflexivity ..].
Qed.

Lemma length_string_of_uint d :
  String.length (NilEmpty.string_of_uint d) = Decimal.nb_digits d.
Proof. induction d; cbn; congruence. Qed.

Lemma uint_val_acc d p : uint_val (Z.pos p) d = Z.pos (Pos.of_uint_acc d p).
Proof.
  revert p. induction d; intros p; cbn [uint_val Pos.of_uint_acc]; [reflexivity|..].
  all: match goal with
       | |- uint_val ?a _ = Z.pos (Pos.of_uint_acc _ ?q) =>
         replace a with (Z.pos q) by lia; apply IHd
       end.
Qed.

Lemma uint_val_of_uint d : uint_val 0 d = Z.of_N (Pos.of_uint d).
Proof.
  induction d; cbn [uint_val Pos.of_uint]; [reflexivity | exact IHd |..].
  all: cbn [Z.mul Z.add Z.of_N]; apply uint_val_acc.
Qed.

Lemma uint_val_ge d acc :
  0 <= acc -> acc * 10 ^ Z.of_nat (Decimal.nb_digits d) <= uint_val acc d.
Proof.
  revert acc. induction d; intros acc Ha; cbn [uint_val Decimal.nb_digits].
  { cbn [Z.of_nat]. rewrite Z.pow_0_r. lia. }
  all: rewrite Nat2Z.inj_succ, Z.pow_succ_r by lia.
  all: match goal with
       | |- _ <= uint_val ?a _ =>
         specialize (IHd a ltac:(lia));
         pose proof (Z.pow_nonneg 10 (Z.of_nat (Decimal.nb_digits d)) ltac:(lia));
         nia
       end.
Qed.

(** An integer below 10^4300 has at most 4300 digits. *)
Lemma int_len_bound t : Z.abs t < 10 ^ 4300 -> (int_len t <= max_str_digits)%nat.
Proof.
  unfold int_len, str_int, max_str_digits. intros Ht.
  destruct (Z.abs t) as [|p|p] eqn:Ea; [cbn; lia | | lia].
  cbn [Z.to_int NilZero.string_of_int].
  pose proof (uint_val_of_uint (Pos.to_uint p)) as Hv.
  rewrite DecimalPos.Unsigned.of_to in Hv. cbn [Z.of_N] in Hv.
  pose proof (to_uint_head p) as Hh. pose proof (Unsigned.to_uint_nonnil p) as Hn.
  assert (Hs : NilZero.string_of_uint (Pos.to_uint p)
               = NilEmpty.string_of_uint (Pos.to_uint p))
    by (destruct (Pos.to_uint p); [congruence | reflexivity ..]).
  rewrite Hs, length_string_of_uint.
  assert (Hlow : 10 ^ (Z.of_nat (Decimal.nb_digits (Pos.to_uint p)) - 1) <= Z.pos p).
  { destruct (Pos.to_uint p) as [|u|u|u|u|u|u|u|u|u|u]; try congruence;
      try (now destruct (Hh u));
      cbn [uint_val Decimal.nb_digits] in Hv |- *;
      rewrite Nat2Z.inj_succ;
      replace (Z.succ (Z.of_nat (Decimal.nb_digits u)) - 1)
        with (Z.of_nat (Decimal.nb_digits u)) by lia;
      rewrite <- Hv;
      match goal with
      | |- _ <= uint_val ?a _ =>
        pose proof (uint_val_ge u a ltac:(lia));
        pose proof (Z.pow_nonneg 10 (Z.of_nat (Decimal.nb_digits u)) ltac:(lia));
        nia
      end. }
  assert (Hlt : Z.of_nat (Decimal.nb_digits (Pos.to_uint p)) - 1 < 4300).
  { apply (Z.pow_lt_mono_r_iff 10); lia. }
  lia.
Qed.

Lemma int_literal_digits c r z n :
  is_digit c = true -> int_run 0 0 (String c r) = Some (z, n, "") ->
  (n <= max_str_digits)%nat ->
  int_literal (String c r) = IntValue z
  /\ int_literal (String "-" (String c r)) = IntValue (- z).
Proof.
  intros Hc Hd Hn.
  assert (Hs : is_space c = false).
  { unfold is_digit in Hc. unfold is_space. cbv zeta. lia. }
  assert (H45 : (code c =? 45) = false) by (unfold is_digit in Hc; lia).
  assert (H43 : (code c =? 43) = false) by (unfold is_digit in Hc; lia).
  assert (Hl : (max_str_digits <? n)%nat = false) by now apply Nat.ltb_ge.
  split; unfold int_literal; cbn [lstrip].
  - rewrite Hs. cbv beta iota zeta. rewrite H45, H43. cbv beta iota zeta.
    rewrite Hc, Hd, Hl. reflexivity.
  - change (is_space "-") with false. cbv beta iota zeta.
    change (code "-" =? 45) with true. cbv beta iota zeta.
    rewrite Hc, Hd, Hl. reflexivity.
Qed.

Lemma py_int_uint p :
  (int_len (Z.pos p) <= max_str_digits)%nat ->
  int_literal (ascii_form (NilZero.string_of_uint (Pos.to_uint p))) = IntValue (Z.pos p)
  /\ int_literal (ascii_form ("-" +:+ NilZero.string_of_uint (Pos.to_uint p)))
     = IntValue (Z.neg p).
Proof.
  intros Hlen.
  change (String.length (NilZero.string_of_uint (Pos.to_uint p)) <= max_str_digits)%nat
    in Hlen.
  pose proof (uint_val_of_uint (Pos.to_uint p)) as Hv.
  rewrite DecimalPos.Unsigned.of_to in Hv.
  pose proof (int_run_uint (Pos.to_uint p) 0 0) as Hd. rewrite Hv in Hd.
  rewrite append_cons, append_nil_l.
  assert (Hn : NilZero.string_of_uint (Pos.to_uint p)
               = NilEmpty.string_of_uint (Pos.to_uint p)).
  { destruct (Pos.to_uint p); [discriminate Hv | reflexivity ..]. }
  rewrite Hn in Hlen |- *. rewrite length_string_of_uint in Hlen.
  change (ascii_form (String "-" (NilEmpty.string_of_uint (Pos.to_uint p))))
    with (String "-" (ascii_form (NilEmpty.string_of_uint (Pos.to_uint p)))).
  rewrite ascii_form_uint.
  assert (Hh : exists c r, NilEmpty.string_of_uint (Pos.to_uint p) = String c r
                           /\ is_digit c = true).
  { destruct (Pos.to_uint p); [discriminate Hv | ..];
      cbn [NilEmpty.string_of_uint]; eexists _, _; split; reflexivity. }
  destruct Hh as (c & r & Hcr & Hc). rewrite Hcr in Hd |- *.
  exact (int_literal_digits c r (Z.pos p) _ Hc Hd Hlen).
Qed.

(** [int()] reads what [str()] writes, within the limit. *)
Lemma py_int_str_int t :
  (int_len t <= max_str_digits)%nat -> py_int (str_int t) = Ret t.
Proof.
  intros Hlen. unfold py_int, str_int.
  destruct t as [|p|p]; [reflexivity|..]; cbn [Z.to_int NilZero.string_of_int].
  - now rewrite (proj1 (py_int_uint p Hlen)).
  - change (String "-" (NilZero.string_of_uint (Pos.to_uint p)))
      with ("-" +:+ NilZero.string_of_uint (Pos.to_uint p)).
    now rewrite (proj2 (py_int_uint p Hlen)).
Qed.

(** X14: the TTL is whatever integer [CACHE_TTL_SECONDS] spells, zero and
    negative ones included: with the variable set to the decimal text of
    [t] (of at most 4300 digits, the longest [int()] converts) the
    constructor returns, when the network fails with [Exception]s only, and
    the TTL of the service is [t]. *)
Theorem ttl_is_any_integer (w : world) (t : Z) :
  faults_are_Exceptions (net w) ->
  Z.abs t < 10 ^ 4300 ->
  environ w !! "CACHE_TTL_SECONDS" = Some (str_int t) ->
  fst (init w) = Ret tt /\ cache_ttl (svc (snd (init w))) = t.
Proof.
  intros Hq Ht Henv.
  unfold init, int_getenv, getenv, bind, lift, ret, set_self. cbn.
  rewrite Henv, (py_int_str_int t (int_len_bound t Ht)). cbn.
  match goal with |- fst (establish ?w') = _ /\ _ => set (w1 := w') end.
  assert (He : fst (establish w1) = Ret tt) by (apply establish_total; exact Hq).
  split; [exact He|].
  now destruct (establish_returns w1 He) as (-> & _).
Qed.

Lemma ttl_is_any_integer_witness :
  fst (init (start {["CACHE_TTL_SECONDS" := "-5"]} [])) = Ret tt
  /\ cache_ttl (svc (snd (init (start {["CACHE_TTL_SECONDS" := "-5"]} [])))) = -5.
Proof.
  refine (ttl_is_any_integer (start {["CACHE_TTL_SECONDS" := "-5"]} []) (-5) _ _ _).
  - constructor.
  - vm_compute. reflexivity.
  - reflexivity.
Defined.
